(** * llm-router: the routing and clean-up pipeline

    A shallow embedding of [cleanModelResponse] (lib/utils) and of the
    chat route ([llmRouter], [POST]) together with the pieces of the
    JavaScript runtime they rely on: strings as sequences of UTF-16 code
    units, the regular expressions the sanitizer uses, [String.prototype.trim],
    [JSON.parse], and the effects of the request handler (clock, logger,
    upstream completion calls). *)

From Stdlib Require Import String Ascii ZArith List Bool Lia.
From Stdlib Require Import DecimalString.
Import ListNotations.

Local Open Scope Z_scope.

(** ** JavaScript strings *)

(** A JavaScript string is a sequence of 16-bit code units; [length] counts
    code units, so it is [List.length] here. *)
Definition char16 : Type := Z.
Definition JSString : Type := list char16.

(** ASCII literals of the source, as code units. *)
Definition js (s : string) : JSString :=
  map (fun a => Z.of_N (N_of_ascii a)) (list_ascii_of_string s).

Definition is_empty (s : JSString) : bool :=
  match s with [] => true | _ :: _ => false end.

Fixpoint str_eqb (a b : JSString) : bool :=
  match a, b with
  | [], [] => true
  | x :: a', y :: b' => (x =? y) && str_eqb a' b'
  | _, _ => false
  end.

(** [WhiteSpace] and [LineTerminator] of ECMAScript: the characters that
    the [\s] class escape matches and that [trim] removes. *)
Definition isWhiteSpace (c : char16) : bool :=
  (c =? 0x09) || (c =? 0x0A) || (c =? 0x0B) || (c =? 0x0C) || (c =? 0x0D)
  || (c =? 0x20) || (c =? 0xA0) || (c =? 0x1680)
  || ((0x2000 <=? c) && (c <=? 0x200A))
  || (c =? 0x2028) || (c =? 0x2029) || (c =? 0x202F) || (c =? 0x205F)
  || (c =? 0x3000) || (c =? 0xFEFF).

Fixpoint dropWhile (p : char16 -> bool) (s : JSString) : JSString :=
  match s with
  | [] => []
  | x :: s' => if p x then dropWhile p s' else s
  end.

(** Removes the longest suffix whose characters all satisfy [p]. *)
Fixpoint dropWhileEnd (p : char16 -> bool) (s : JSString) : JSString :=
  match s with
  | [] => []
  | x :: s' => if forallb p s then [] else x :: dropWhileEnd p s'
  end.

(** [String.prototype.trim]. *)
Definition trim (s : JSString) : JSString :=
  dropWhileEnd isWhiteSpace (dropWhile isWhiteSpace s).

(** [String.prototype.indexOf], [includes] and [substring(i)] for the
    second-stage fallback of the handler. *)
Fixpoint startsWith (needle s : JSString) : bool :=
  match needle, s with
  | [], _ => true
  | _ :: _, [] => false
  | a :: needle', x :: s' => (a =? x) && startsWith needle' s'
  end.

Fixpoint indexOf (needle s : JSString) : option nat :=
  if startsWith needle s then Some O
  else match s with
       | [] => None
       | _ :: s' => option_map S (indexOf needle s')
       end.

Definition includes (needle s : JSString) : bool :=
  match indexOf needle s with Some _ => true | None => false end.

Definition substring_from (i : nat) (s : JSString) : JSString := skipn i s.

(** ** Regular expressions

    The fragment of ECMAScript patterns that occurs in the source: a
    disjunction of sequences of pattern characters, greedy [+] over a
    character class, and the assertions [^] and [$] (no [m] flag, so they
    hold at the two ends of the input only). *)

Inductive ClassItem : Type :=
  | CChar (c : char16)      (* a character of a bracket class *)
  | CSpace.                 (* the class escape \s *)

Inductive Term : Type :=
  | Lit (c : char16)
  | Plus (cls : list ClassItem)
  | Bol
  | Eol.

Record RegExp : Type := mkRegExp {
  disjunction : list (list Term);
  ignoreCase : bool
}.

(** [Canonicalize] of the pattern semantics, without the [u] flag: the
    character is upper-cased, except that a character outside ASCII is never
    mapped into ASCII.  All pattern characters of the source are ASCII, and a
    comparison with an ASCII character only depends on the ASCII part of the
    mapping, which is the one given here. *)
Definition canonicalize (ic : bool) (c : char16) : char16 :=
  if ic && (0x61 <=? c) && (c <=? 0x7A) then c - 0x20 else c.

Definition char_matches (ic : bool) (p c : char16) : bool :=
  canonicalize ic p =? canonicalize ic c.

(** No character is mapped to a white space character by [Canonicalize],
    so [\s] matches the same characters with and without the [i] flag. *)
Definition class_item_matches (ic : bool) (c : char16) (i : ClassItem)
  : bool :=
  match i with
  | CChar p => char_matches ic p c
  | CSpace => isWhiteSpace c
  end.

Definition in_class (ic : bool) (cls : list ClassItem) (c : char16) : bool :=
  existsb (class_item_matches ic c) cls.

(** Greedy [cls+] followed by the continuation [k]: at least one character
    of the class, then as many as possible, giving characters back one at a
    time when the continuation fails.  The result is the number of code
    units matched. *)
Fixpoint plus_greedy (p : char16 -> bool) (k : JSString -> option nat)
    (s : JSString) : option nat :=
  match s with
  | [] => None
  | x :: s' =>
      if p x then
        match plus_greedy p k s' with
        | Some n => Some (S n)
        | None => option_map S (k s')
        end
      else None
  end.

(** Matching a sequence of terms at the current position; [at_start] tells
    whether the position is index 0 of the input. *)
Fixpoint match_seq (ic : bool) (ts : list Term) (at_start : bool)
    (s : JSString) : option nat :=
  match ts with
  | [] => Some O
  | Lit p :: ts' =>
      match s with
      | x :: s' =>
          if char_matches ic p x then option_map S (match_seq ic ts' false s')
          else None
      | [] => None
      end
  | Plus cls :: ts' => plus_greedy (in_class ic cls) (match_seq ic ts' false) s
  | Bol :: ts' => if at_start then match_seq ic ts' at_start s else None
  | Eol :: ts' =>
      match s with
      | [] => match_seq ic ts' at_start s
      | _ :: _ => None
      end
  end.

(** The alternatives are tried from left to right. *)
Fixpoint match_disj (ic : bool) (alts : list (list Term)) (at_start : bool)
    (s : JSString) : option nat :=
  match alts with
  | [] => None
  | a :: alts' =>
      match match_seq ic a at_start s with
      | Some n => Some n
      | None => match_disj ic alts' at_start s
      end
  end.

Definition match_here (re : RegExp) (at_start : bool) (s : JSString)
  : option nat :=
  match_disj (ignoreCase re) (disjunction re) at_start s.

(** [String.prototype.replace] with a global pattern and a replacement
    string without [$]: the input is scanned from the left; at a match the
    replacement is emitted and the scan resumes after the match ([skip]
    counts the matched code units still to be passed over); an empty match
    emits the replacement and copies one code unit. *)
Fixpoint replace_loop (re : RegExp) (by_ : JSString) (at_start : bool)
    (skip : nat) (s : JSString) : JSString :=
  match skip with
  | S k =>
      match s with
      | [] => []
      | _ :: s' => replace_loop re by_ false k s'
      end
  | O =>
      match match_here re at_start s with
      | Some (S n) =>
          by_ ++ match s with
                 | [] => []
                 | _ :: s' => replace_loop re by_ false n s'
                 end
      | Some O =>
          by_ ++ match s with
                 | [] => []
                 | x :: s' => x :: replace_loop re by_ false O s'
                 end
      | None =>
          match s with
          | [] => []
          | x :: s' => x :: replace_loop re by_ false O s'
          end
      end
  end.

Definition replace (s : JSString) (re : RegExp) (by_ : JSString) : JSString :=
  replace_loop re by_ true O s.

(** [RegExp.prototype.test] (from index 0): is there a match anywhere? *)
Fixpoint search (re : RegExp) (at_start : bool) (s : JSString) : bool :=
  match match_here re at_start s with
  | Some _ => true
  | None => match s with [] => false | _ :: s' => search re false s' end
  end.

Definition test (re : RegExp) (s : JSString) : bool := search re true s.

(** Pattern syntax helpers. *)
Definition lits (s : string) : list Term := map Lit (js s).
Definition spaces : Term := Plus [CSpace].
Definition gi (ts : list Term) : RegExp := mkRegExp [ts] true.

(** ** The sanitizer (lib/utils) *)

Module Sanitizer.

Definition artifacts : list RegExp := [
  gi (lits "analysis");                          (* /analysis/gi *)
  gi (lits "assistantfinal");                    (* /assistantfinal/gi *)
  gi (lits "user" ++ spaces :: lits "wrote:");   (* /user\s+wrote:/gi *)
  (* /they\s+are\s+asking/gi *)
  gi (lits "they" ++ spaces :: lits "are" ++ spaces :: lits "asking");
  gi (lits "so" ++ spaces :: lits "count:");     (* /so\s+count:/gi *)
  gi (lits "so" ++ spaces :: lits "answer:");    (* /so\s+answer:/gi *)
  (* /probably\s+the\s+assistant\s+should/gi *)
  gi (lits "probably" ++ spaces :: lits "the" ++ spaces :: lits "assistant"
        ++ spaces :: lits "should");
  (* /but\s+maybe\s+the\s+user\s+expects/gi *)
  gi (lits "but" ++ spaces :: lits "maybe" ++ spaces :: lits "the" ++ spaces
        :: lits "user" ++ spaces :: lits "expects");
  gi (lits "just" ++ spaces :: lits "answer:");  (* /just\s+answer:/gi *)
  gi (lits "short.")                             (* /short\./gi *)
].

(** [/\s+/g] *)
Definition whitespace_run : RegExp := mkRegExp [[spaces]] false.

(** [/^[.,\s]+|[.,\s]+$/g] *)
Definition punct : list ClassItem := [CChar 0x2E; CChar 0x2C; CSpace].
Definition edge_punctuation : RegExp :=
  mkRegExp [[Bol; Plus punct]; [Plus punct; Eol]] false.

Definition removeArtifacts (response : JSString) : JSString :=
  fold_left (fun cleaned pattern => replace cleaned pattern []) artifacts
    response.

Definition normalize (cleaned : JSString) : JSString :=
  let cleaned := trim (replace cleaned whitespace_run (js " ")) in
  replace cleaned edge_punctuation [].

(** The value of [cleaned] when the quality gate is reached. *)
Definition cleanedForm (response : JSString) : JSString :=
  normalize (removeArtifacts response).

Definition cleanModelResponse (response : JSString) : JSString :=
  if is_empty response then response
  else
    let cleaned := cleanedForm response in
    if (length cleaned <? 10)%nat then response else cleaned.

End Sanitizer.


(** ** Completions, JSON values and [JSON.parse] *)

Inductive Error : Type :=
  | SyntaxError
  | TypeError
  | APIError (reason : JSString).   (* a rejected upstream call *)

(** The outcome of evaluating an expression: a value or a thrown error. *)
Inductive Completion (A : Type) : Type :=
  | Normal (a : A)
  | Throw (e : Error).

Arguments Normal {A} a.
Arguments Throw {A} e.

(** A JSON number as written: (-1)^negative * coefficient * 10^exponent. *)
Record Decimal : Type := mkDecimal {
  negative : bool;
  coefficient : Z;
  exponent : Z
}.

#[local] Set Warnings "-register-all".

Inductive JSON : Type :=
  | JNull
  | JBool (b : bool)
  | JNumber (n : Decimal)
  | JString (s : JSString)
  | JArray (items : list JSON)
  | JObject (members : list (JSString * JSON)).

Definition ch (a : ascii) : char16 := Z.of_N (N_of_ascii a).
Definition quote : char16 := 0x22.
Definition backslash : char16 := 0x5C.

(** The literal [s] between double quotes. *)
Definition quoted (s : string) : JSString := quote :: js s ++ [quote].

Definition json_ws (c : char16) : bool :=
  (c =? 0x20) || (c =? 0x09) || (c =? 0x0A) || (c =? 0x0D).

Definition skip_ws (s : JSString) : JSString := dropWhile json_ws s.

Definition is_digit (c : char16) : bool := (0x30 <=? c) && (c <=? 0x39).

Definition hex_value (c : char16) : option Z :=
  if is_digit c then Some (c - 0x30)
  else if (0x61 <=? c) && (c <=? 0x66) then Some (c - 0x61 + 10)
  else if (0x41 <=? c) && (c <=? 0x46) then Some (c - 0x41 + 10)
  else None.

Definition hex4 (a b c d : char16) : option char16 :=
  match hex_value a, hex_value b, hex_value c, hex_value d with
  | Some x, Some y, Some z, Some w => Some (((x * 16 + y) * 16 + z) * 16 + w)
  | _, _, _, _ => None
  end.

Definition escape (c : char16) : option char16 :=
  if (c =? quote) || (c =? backslash) || (c =? ch "/") then Some c
  else if c =? ch "b" then Some 0x08
  else if c =? ch "f" then Some 0x0C
  else if c =? ch "n" then Some 0x0A
  else if c =? ch "r" then Some 0x0D
  else if c =? ch "t" then Some 0x09
  else None.

(** The characters of a JSON string after its opening quote, up to the
    closing one; the result is the string denoted and the rest of the text. *)
Fixpoint parse_string_chars (s : JSString) : option (JSString * JSString) :=
  match s with
  | [] => None
  | c :: s1 =>
      if c =? quote then Some ([], s1)
      else if c =? backslash then
        match s1 with
        | [] => None
        | e :: s2 =>
            if e =? ch "u" then
              match s2 with
              | h1 :: h2 :: h3 :: h4 :: s3 =>
                  match hex4 h1 h2 h3 h4, parse_string_chars s3 with
                  | Some u, Some (str, rest) => Some (u :: str, rest)
                  | _, _ => None
                  end
              | _ => None
              end
            else
              match escape e, parse_string_chars s2 with
              | Some u, Some (str, rest) => Some (u :: str, rest)
              | _, _ => None
              end
        end
      else if c <? 0x20 then None
      else
        match parse_string_chars s1 with
        | Some (str, rest) => Some (c :: str, rest)
        | None => None
        end
  end.

(** A run of decimal digits: its value with the digits read so far in
    [acc], the number of digits, and the rest of the text. *)
Fixpoint take_digits (acc : Z) (s : JSString) : Z * nat * JSString :=
  match s with
  | c :: s' =>
      if is_digit c then
        let '(v, n, rest) := take_digits (acc * 10 + (c - 0x30)) s' in
        (v, S n, rest)
      else (acc, O, s)
  | [] => (acc, O, [])
  end.

(** A JSON number: an optional minus sign; an integer part that is a single
    0 or starts with a non-zero digit; an optional fraction of a point and
    at least one digit; an optional exponent of e or E, an optional sign and
    at least one digit. *)
Definition parse_number (s : JSString) : option (Decimal * JSString) :=
  let '(neg, s1) :=
    match s with
    | c :: s' => if c =? ch "-" then (true, s') else (false, s)
    | [] => (false, s)
    end in
  let int_part :=
    match s1 with
    | c :: s' =>
        if c =? ch "0" then Some (0, s')
        else if is_digit c then
               let '(v, _, rest) := take_digits 0 s1 in Some (v, rest)
             else None
    | [] => None
    end in
  match int_part with
  | None => None
  | Some (int, s2) =>
      let frac_part :=
        match s2 with
        | c :: s' =>
            if c =? ch "." then
              match take_digits int s' with
              | (_, O, _) => None
              | (v, n, rest) => Some (v, n, rest)
              end
            else Some (int, O, s2)
        | [] => Some (int, O, s2)
        end in
      match frac_part with
      | None => None
      | Some (coeff, scale, s3) =>
          let exp_part :=
            match s3 with
            | c :: s' =>
                if (c =? ch "e") || (c =? ch "E") then
                  let '(minus, s4) :=
                    match s' with
                    | d :: s'' =>
                        if d =? ch "-" then (true, s'')
                        else if d =? ch "+" then (false, s'')
                        else (false, s')
                    | [] => (false, s')
                    end in
                  match take_digits 0 s4 with
                  | (_, O, _) => None
                  | (e, _, rest) => Some (if minus then - e else e, rest)
                  end
                else Some (0, s3)
            | [] => Some (0, s3)
            end in
          match exp_part with
          | None => None
          | Some (e, rest) =>
              Some (mkDecimal neg coeff (e - Z.of_nat scale), rest)
          end
      end
  end.

Inductive Parse (A : Type) : Type :=
  | Parsed (a : A) (rest : JSString)
  | Invalid                  (* the text is not JSON *)
  | Exhausted.               (* recursion budget used up, see [JSON_parse] *)

Arguments Parsed {A} a rest.
Arguments Invalid {A}.
Arguments Exhausted {A}.

Definition literal (word : string) (v : JSON) (s : JSString) : Parse JSON :=
  if startsWith (js word) s then Parsed v (skipn (String.length word) s)
  else Invalid.

(** Recursive descent over the JSON grammar.  [parse_elements] reads the
    elements of an array after its opening bracket and [parse_members] the
    members of an object after its opening brace, both non-empty. *)
Fixpoint parse_value (fuel : nat) (s : JSString) : Parse JSON :=
  match fuel with
  | O => Exhausted
  | S fuel' =>
      match skip_ws s with
      | [] => Invalid
      | c :: r =>
          if c =? ch "{" then
            match skip_ws r with
            | c' :: r' =>
                if c' =? ch "}" then Parsed (JObject []) r'
                else match parse_members fuel' r with
                     | Parsed ms rest => Parsed (JObject ms) rest
                     | Invalid => Invalid
                     | Exhausted => Exhausted
                     end
            | [] => Invalid
            end
          else if c =? ch "[" then
            match skip_ws r with
            | c' :: r' =>
                if c' =? ch "]" then Parsed (JArray []) r'
                else match parse_elements fuel' r with
                     | Parsed vs rest => Parsed (JArray vs) rest
                     | Invalid => Invalid
                     | Exhausted => Exhausted
                     end
            | [] => Invalid
            end
          else if c =? quote then
            match parse_string_chars r with
            | Some (str, rest) => Parsed (JString str) rest
            | None => Invalid
            end
          else if c =? ch "t" then literal "true" (JBool true) (c :: r)
          else if c =? ch "f" then literal "false" (JBool false) (c :: r)
          else if c =? ch "n" then literal "null" JNull (c :: r)
          else
            match parse_number (c :: r) with
            | Some (n, rest) => Parsed (JNumber n) rest
            | None => Invalid
            end
      end
  end
with parse_elements (fuel : nat) (s : JSString) : Parse (list JSON) :=
  match fuel with
  | O => Exhausted
  | S fuel' =>
      match parse_value fuel' s with
      | Parsed v r =>
          match skip_ws r with
          | c :: r' =>
              if c =? ch "," then
                match parse_elements fuel' r' with
                | Parsed vs rest => Parsed (v :: vs) rest
                | Invalid => Invalid
                | Exhausted => Exhausted
                end
              else if c =? ch "]" then Parsed [v] r'
              else Invalid
          | [] => Invalid
          end
      | Invalid => Invalid
      | Exhausted => Exhausted
      end
  end
with parse_members (fuel : nat) (s : JSString)
  : Parse (list (JSString * JSON)) :=
  match fuel with
  | O => Exhausted
  | S fuel' =>
      match skip_ws s with
      | c :: r =>
          if c =? quote then
            match parse_string_chars r with
            | Some (key, r1) =>
                match skip_ws r1 with
                | c1 :: r2 =>
                    if c1 =? ch ":" then
                      match parse_value fuel' r2 with
                      | Parsed v r3 =>
                          match skip_ws r3 with
                          | c3 :: r4 =>
                              if c3 =? ch "," then
                                match parse_members fuel' r4 with
                                | Parsed ms rest => Parsed ((key, v) :: ms) rest
                                | Invalid => Invalid
                                | Exhausted => Exhausted
                                end
                              else if c3 =? ch "}" then Parsed [(key, v)] r4
                              else Invalid
                          | [] => Invalid
                          end
                      | Invalid => Invalid
                      | Exhausted => Exhausted
                      end
                    else Invalid
                | [] => Invalid
                end
            | None => Invalid
            end
          else Invalid
      | [] => Invalid
      end
  end.

(** [JSON.parse(text)]: one value, surrounded by optional white space.  The
    budget of two steps per code unit is never used up
    ([parse_value_budget]). *)
Definition budget (text : JSString) : nat := (2 * length text + 1)%nat.

Definition JSON_parse (text : JSString) : Completion JSON :=
  match parse_value (budget text) text with
  | Parsed v rest => if is_empty (skip_ws rest) then Normal v
                     else Throw SyntaxError
  | _ => Throw SyntaxError
  end.

(** [ToBoolean].  A number is falsy when it is 0 as a double, that is when
    the decimal rounds to zero: its magnitude is at most 2^-1075. *)
Definition rounds_to_zero (n : Decimal) : bool :=
  if coefficient n =? 0 then true
  else if 0 <=? exponent n then false
  else coefficient n * 2 ^ 1075 <=? 10 ^ (- exponent n).

Definition truthy (v : JSON) : bool :=
  match v with
  | JNull => false
  | JBool b => b
  | JNumber n => negb (rounds_to_zero n)
  | JString s => negb (is_empty s)
  | JArray _ | JObject _ => true
  end.

(** The member named [key] of a parsed object; of two members with the
    same name the later one stays. *)
Fixpoint member (key : JSString) (ms : list (JSString * JSON))
  : option JSON :=
  match ms with
  | [] => None
  | (k, v) :: ms' =>
      match member key ms' with
      | Some v' => Some v'
      | None => if str_eqb k key then Some v else None
      end
  end.

(** [value.key] for a key that no built-in prototype defines ([model],
    [reasoning]): [None] stands for [undefined]; reading a property of
    [null] throws. *)
Definition get (value : JSON) (key : JSString) : Completion (option JSON) :=
  match value with
  | JNull => Throw TypeError
  | JObject ms => Normal (member key ms)
  | _ => Normal None
  end.

(** [value || fallback] *)
Definition or_else (value : option JSON) (fallback : JSON) : JSON :=
  match value with
  | Some v => if truthy v then v else fallback
  | None => fallback
  end.


(** ** Effects of the chat route: clock, logger, upstream calls *)

Inductive Level : Type := Info | Warn | ErrorLevel.

(** The chat-completion endpoint of the provider:
    [{choices: [{message: {content}}]}] with a content that may be [null]. *)
Record CompletionMessage : Type := { content : option JSString }.
Record Choice : Type := { choice_message : CompletionMessage }.
Record ChatCompletion : Type := { choices : list Choice }.

Record ChatRequest : Type := {
  req_model : JSON;
  req_messages : list (JSString * JSString);      (* role, content *)
  req_response_format : option JSString;          (* its type *)
  req_temperature : option Decimal;
  req_max_tokens : option Z
}.

(** What the provider does with a request: the call stays pending for
    [latency] milliseconds, then resolves with a completion or rejects. *)
Record Exchange : Type := {
  latency : N;
  result : Completion ChatCompletion
}.

Definition Upstream : Type := ChatRequest -> Exchange.

Inductive Event : Type :=
  | EvNow (t : Z)
  | EvLog (level : Level) (title : JSString)
  | EvCreate (req : ChatRequest).

(** The state threaded through a request: the wall clock in milliseconds
    and the effects performed so far, oldest first.  Time passes only while
    an upstream call is pending. *)
Record World : Type := { clock : Z; events : list Event }.

Definition M (A : Type) : Type := World -> Completion A * World.

Definition ret {A : Type} (a : A) : M A := fun w => (Normal a, w).

Definition bind {A B : Type} (m : M A) (k : A -> M B) : M B :=
  fun w =>
    match m w with
    | (Normal a, w') => k a w'
    | (Throw e, w') => (Throw e, w')
    end.

Definition lift {A : Type} (c : Completion A) : M A := fun w => (c, w).

(** [try { body } catch (error) { handler }] *)
Definition try_catch {A : Type} (body : M A) (handler : Error -> M A) : M A :=
  fun w =>
    match body w with
    | (Normal a, w') => (Normal a, w')
    | (Throw e, w') => handler e w'
    end.

Notation "x <- m ;; k" := (bind m (fun x => k))
  (at level 61, m at next level, right associativity).
Notation "m ;; k" := (bind m (fun _ => k))
  (at level 61, right associativity).

Definition record (e : Event) (w : World) : World :=
  {| clock := clock w; events := events w ++ [e] |}.

(** [Date.now()] *)
Definition Date_now : M Z :=
  fun w => (Normal (clock w), record (EvNow (clock w)) w).

(** Modelled from the spec: the logger of utils/logger is not part of the
    sources at hand; the core emits leveled events (info, warn, error) at its
    decision points, which an external collaborator consumes.  The payload
    objects are left out. *)
Definition log (level : Level) (title : string) : M unit :=
  fun w => (Normal tt, record (EvLog level (js title)) w).

(** [await openai.chat.completions.create(req)] *)
Definition create (openai : Upstream) (req : ChatRequest)
  : M ChatCompletion :=
  fun w =>
    let x := openai req in
    (result x,
     {| clock := clock w + Z.of_N (latency x);
        events := events w ++ [EvCreate req] |}).

(** [response.choices[0].message.content]; reading [message] of a missing
    first choice throws. *)
Definition first_content (response : ChatCompletion)
  : Completion (option JSString) :=
  match choices response with
  | [] => Throw TypeError
  | c :: _ => Normal (content (choice_message c))
  end.

(** ** The routing policy (app/api/chat/route) *)

Record RoutingDecision : Type := {
  rd_model : JSON;
  rd_reasoning : JSON
}.

Definition default_model : JSString := js "openai/gpt-oss-20b:free".

Fixpoint unlines (ls : list JSString) : JSString :=
  match ls with
  | [] => []
  | [l] => l
  | l :: ls' => l ++ 0x0A :: unlines ls'
  end.

Definition routingPrompt (message : JSString) : JSString :=
  unlines [
    js "You are an expert AI model router. Your job is to analyze a user's message and select the most appropriate AI model based on the specific requirements.";
    [];
    js "Available Models:";
    js "1. openai/gpt-oss-20b:free";
    js "   - Best for: Simple greetings, basic questions, casual conversation";
    js "   - Strengths: Free, fast (0.52s latency), high throughput (162 tps)";
    js "   - Limitations: May produce training artifacts, basic reasoning, limited coding capabilities";
    js "   - Use when: User asks simple questions, wants casual conversation, or needs quick responses";
    [];
    js "2. anthropic/claude-sonnet-4";
    js "   - Best for: Complex coding tasks, software development, technical analysis";
    js "   - Strengths: Excellent coding abilities, SWE-bench 72.7%, 200k context, clean responses";
    js "   - Cost: $3/M input, $15/M output tokens";
    js "   - Use when: User needs code generation, debugging, software architecture, or when clean formatting is important";
    [];
    js "3. openai/gpt-5-mini";
    js "   - Best for: Complex reasoning, analysis, problem-solving";
    js "   - Strengths: Advanced reasoning, 400k context, good instruction following, clean responses";
    js "   - Cost: $0.25/M input, $2/M output tokens";
    js "   - Use when: User needs logical analysis, mathematical reasoning, strategic thinking, or complex problem-solving";
    [];
    js "Routing Rules:";
    js "- Choose gpt-oss-20b for: Simple greetings, basic questions, casual conversation, or when no specific technical/cognitive demands exist";
    js "- Choose claude-sonnet-4 for: Any coding-related tasks, software development, technical implementation, debugging, or when code quality is important";
    js "- Choose gpt-5-mini for: Complex reasoning, analysis, problem-solving, mathematical thinking, or when deep cognitive processing is required";
    js "User Message: " ++ quote :: message ++ [quote];
    [];
    js "Analyze the message carefully and respond with ONLY a JSON object in this exact format:";
    js "{" ++ quoted "model" ++ js ": " ++ quoted "model_name" ++ js ",";
    quoted "reasoning" ++ js ": " ++ quoted "1 sentence reasoning for the choice" ++ js "}";
    [];
    js "Choose the model name exactly as written above (e.g., " ++ quoted "openai/gpt-oss-20b:free" ++ js ", " ++ quoted "anthropic/claude-sonnet-4" ++ js ", " ++ quoted "openai/gpt-5-mini" ++ js ")"
  ].

Definition classifierRequest (message : JSString) : ChatRequest :=
  {| req_model := JString (js "google/gemini-2.5-flash-lite");
     req_messages := [(js "user", routingPrompt message)];
     req_response_format := Some (js "json_object");
     req_temperature := Some (mkDecimal false 1 (-1));
     req_max_tokens := Some 100 |}.

Definition llmRouter (openai : Upstream) (message : JSString)
  : M RoutingDecision :=
  log Info "Routing prompt" ;;
  response <- create openai (classifierRequest message) ;;
  responseContent <- lift (first_content response) ;;
  match responseContent with
  | None | Some [] =>
      ret {| rd_model := JString default_model;
             rd_reasoning :=
               JString (js "Default fallback model for simple queries") |}
  | Some text =>
      try_catch
        (parsedResponse <- lift (JSON_parse text) ;;
         model <- lift (get parsedResponse (js "model")) ;;
         reasoning <- lift (get parsedResponse (js "reasoning")) ;;
         ret {| rd_model := or_else model (JString default_model);
                rd_reasoning :=
                  or_else reasoning
                    (JString
                       (js "Default fallback model for simple queries")) |})
        (fun error =>
           log ErrorLevel "Failed to parse routing response" ;;
           ret {| rd_model := JString default_model;
                  rd_reasoning :=
                    JString
                      (js "Error in model selection, using default fallback")
               |})
  end.

(** ** The request handler *)

Record ModelCatalogEntry : Type := {
  throughput : JSString;
  timeToFirstToken : JSString;
  tokensPerSecond : JSString;
  cost : JSString
}.

Definition modelPerformance : list (JSString * ModelCatalogEntry) := [
  (js "openai/gpt-oss-20b:free",
   {| throughput := js "162 tps"; timeToFirstToken := js "0.52s";
      tokensPerSecond := js "162"; cost := js "Free" |});
  (js "anthropic/claude-sonnet-4",
   {| throughput := js "120 tps"; timeToFirstToken := js "1.2s";
      tokensPerSecond := js "120"; cost := js "$3/M input, $15/M output" |});
  (js "openai/gpt-5-mini",
   {| throughput := js "150 tps"; timeToFirstToken := js "0.8s";
      tokensPerSecond := js "150";
      cost := js "$0.25/M input, $2/M output" |})
].

Definition not_available : ModelCatalogEntry :=
  {| throughput := js "N/A"; timeToFirstToken := js "N/A";
     tokensPerSecond := js "N/A"; cost := js "N/A" |}.

(** [modelPerformance] is an object literal, so an index expression also
    finds what it inherits from [Object.prototype]: functions and objects,
    all truthy and without enumerable properties of their own. *)
Definition Object_prototype : list JSString := [
  js "constructor"; js "hasOwnProperty"; js "isPrototypeOf";
  js "propertyIsEnumerable"; js "toLocaleString"; js "toString";
  js "valueOf"; js "__proto__"; js "__defineGetter__";
  js "__defineSetter__"; js "__lookupGetter__"; js "__lookupSetter__"
].

Inductive Property : Type :=
  | Own (entry : ModelCatalogEntry)
  | Inherited
  | Missing.

Fixpoint own_entry (key : JSString)
    (catalog : list (JSString * ModelCatalogEntry))
  : option ModelCatalogEntry :=
  match catalog with
  | [] => None
  | (k, e) :: catalog' =>
      if str_eqb k key then Some e else own_entry key catalog'
  end.

Definition lookup_key (key : JSString) : Property :=
  match own_entry key modelPerformance with
  | Some e => Own e
  | None => if existsb (str_eqb key) Object_prototype then Inherited
            else Missing
  end.

(** [modelPerformance[model]]: the value is converted to a property key.
    A string is its own key; an array of one element has the key of that
    element (the empty key when it is [null]); the keys of the other values
    ("null", "true", a numeral, "[object Object]", a list with commas) name
    no property of the catalog. *)
Fixpoint lookup (model : JSON) : Property :=
  match model with
  | JString key => lookup_key key
  | JArray [item] =>
      match item with
      | JNull => Missing
      | _ => lookup item
      end
  | _ => Missing
  end.

(** The static fields that the object spread copies into [performance]. *)
Definition static_fields (model : JSON) : option ModelCatalogEntry :=
  match lookup model with
  | Own e => Some e
  | Inherited => None
  | Missing => Some not_available
  end.

Record Performance : Type := {
  static : option ModelCatalogEntry;
  actualTimeToFirstToken : JSString
}.

Record ChatResponse : Type := {
  body_model : JSON;
  body_reasoning : JSON;
  body_performance : Performance;
  body_reply : JSString
}.

(** The decimal form of an integer number of milliseconds. *)
Definition number_to_string (n : Z) : JSString :=
  js (NilZero.string_of_int (Z.to_int n)).

(** [model === "openai/gpt-oss-20b:free"] *)
Definition is_default (model : JSON) : bool :=
  match model with
  | JString s => str_eqb s default_model
  | _ => false
  end.

(** [rawReply || ""] *)
Definition or_empty (rawReply : option JSString) : JSString :=
  match rawReply with
  | Some s => s
  | None => []
  end.

(** [rawReply !== reply] *)
Definition differs (rawReply : option JSString) (reply : JSString) : bool :=
  match rawReply with
  | Some s => negb (str_eqb s reply)
  | None => true
  end.

(** [reply && (reply.includes("analysis") || reply.includes("assistantfinal"))] *)
Definition still_has_artifacts (reply : JSString) : bool :=
  negb (is_empty reply)
  && (includes (js "analysis") reply || includes (js "assistantfinal") reply).

Definition answerPatterns : list JSString :=
  [js "There are"; js "The answer is"; js "Answer:"; js "Final answer:"].

(** The loop over [answerPatterns]: the reply from the first pattern that
    occurs in it, or the whole reply. *)
Fixpoint answer_part (patterns : list JSString) (reply : JSString)
  : JSString :=
  match patterns with
  | [] => reply
  | pattern :: patterns' =>
      match indexOf pattern reply with
      | Some index => substring_from index reply
      | None => answer_part patterns' reply
      end
  end.

(** [/analysis|assistantfinal|user\s+wrote|they\s+are\s+asking/gi] *)
Definition remaining_artifacts : RegExp :=
  mkRegExp [lits "analysis";
            lits "assistantfinal";
            lits "user" ++ spaces :: lits "wrote";
            lits "they" ++ spaces :: lits "are" ++ spaces :: lits "asking"]
    true.

Definition fallbackReply (reply : JSString) : JSString :=
  trim (replace (answer_part answerPatterns reply) remaining_artifacts []).

Definition completionRequest (model : JSON) (message : JSString)
  : ChatRequest :=
  {| req_model := model;
     req_messages := [(js "user", message)];
     req_response_format := None;
     req_temperature := None;
     req_max_tokens := None |}.

(** The handler, from the decoded [message] of the request body on. *)
Definition POST (openai : Upstream) (message : JSString) : M ChatResponse :=
  startTime <- Date_now ;;
  modelSelection <- llmRouter openai message ;;
  let model := rd_model modelSelection in
  let reasoning := rd_reasoning modelSelection in
  log Info "Model selected" ;;
  response <- create openai (completionRequest model message) ;;
  endTime <- Date_now ;;
  let actualTimeToFirstToken := endTime - startTime in
  rawReply <- lift (first_content response) ;;
  reply <-
    (if is_default model then
       let reply := Sanitizer.cleanModelResponse (or_empty rawReply) in
       (if differs rawReply reply then log Info "Response cleaned"
        else ret tt) ;;
       ret reply
     else ret (or_empty rawReply)) ;;
  reply <-
    (if is_default model && still_has_artifacts reply then
       let fallbackReply := fallbackReply reply in
       if (10 <? length fallbackReply)%nat then
         log Info "Fallback cleaning applied" ;;
         ret fallbackReply
       else ret reply
     else ret reply) ;;
  (if is_default model && still_has_artifacts reply then
     log Warn "Response still contains artifacts after cleaning"
   else ret tt) ;;
  ret {| body_model := model;
         body_reasoning := reasoning;
         body_performance :=
           {| static := static_fields model;
              actualTimeToFirstToken :=
                number_to_string actualTimeToFirstToken ++ js "ms" |};
         body_reply := reply |}.

(** A world at the start of a request. *)
Definition start_of_request (t : Z) : World := {| clock := t; events := [] |}.


(** ** The earlier version of the chat route

    The same file is also present in an earlier version: the routing
    function returns the model alone, parses the classifier answer without
    a [try], and the handler returns one formatted [message]. *)

Module Legacy.

(** [console.log(text)], recorded as an information event that carries the
    text. *)
Definition console_log (text : JSString) : M unit :=
  fun w => (Normal tt, record (EvLog Info text) w).

Definition routingPrompt (message : JSString) : JSString :=
  unlines [
      js "You are an expert AI model router. Your job is to analyze a user's message and select the most appropriate AI model based on the specific requirements.";
      [];
      js "Available Models:";
      js "1. openai/gpt-oss-20b:free";
      js "   - Best for: Simple conversations, basic Q&A, general chat";
      js "   - Strengths: Free, fast (0.52s latency), high throughput (162 tps)";
      js "   - Limitations: Basic reasoning, limited coding capabilities";
      js "   - Use when: User asks simple questions, wants casual conversation, or needs quick responses";
      [];
      js "2. anthropic/claude-sonnet-4";
      js "   - Best for: Complex coding tasks, software development, technical analysis";
      js "   - Strengths: Excellent coding abilities, SWE-bench 72.7%, 200k context";
      js "   - Cost: $3/M input, $15/M output tokens";
      js "   - Use when: User needs code generation, debugging, software architecture, or complex technical work";
      [];
      js "3. openai/gpt-5-mini";
      js "   - Best for: Complex reasoning, analysis, problem-solving";
      js "   - Strengths: Advanced reasoning, 400k context, good instruction following";
      js "   - Cost: $0.25/M input, $2/M output tokens";
      js "   - Use when: User needs logical analysis, mathematical reasoning, strategic thinking, or complex problem-solving";
      [];
      js "Routing Rules:";
      js "- Choose gpt-oss-20b ONLY for: Simple greetings, basic questions, casual conversation, or when no specific technical/cognitive demands exist";
      js "- Choose claude-sonnet-4 for: Any coding-related tasks, software development, technical implementation, debugging, or when code quality is important";
      js "- Choose gpt-5-mini for: Complex reasoning, analysis, problem-solving, mathematical thinking, or when deep cognitive processing is required";
      js "- If multiple criteria apply, prioritize: Coding > Reasoning > Simple";
      [];
      js "User Message: " ++ quote :: message ++ [quote];
      [];
      js "Analyze the message carefully and respond with ONLY a JSON object in this exact format:";
      js "{" ++ quoted "model" ++ js ": " ++ quoted "model_name" ++ js ",";
      quoted "reasoning" ++ js ": " ++ quoted "1 sentence reasoning for the choice" ++ js "}";
      [];
      js "Choose the model name exactly as written above (e.g., " ++ quoted "openai/gpt-oss-20b:free" ++ js ", " ++ quoted "anthropic/claude-sonnet-4" ++ js ", " ++ quoted "openai/gpt-5-mini" ++ js ")"
  ].

Definition classifierRequest (message : JSString) : ChatRequest :=
  {| req_model := JString (js "google/gemini-2.5-flash-lite");
     req_messages := [(js "user", routingPrompt message)];
     req_response_format := Some (js "json_object");
     req_temperature := Some (mkDecimal false 1 (-1));
     req_max_tokens := Some 100 |}.

Definition llmRouter (openai : Upstream) (message : JSString) : M JSON :=
  console_log (routingPrompt message) ;;
  response <- create openai (classifierRequest message) ;;
  responseContent <- lift (first_content response) ;;
  match responseContent with
  | None | Some [] => ret (JString (js "openai/gpt-oss-20b:free"))
  | Some text =>
      parsedResponse <- lift (JSON_parse text) ;;
      model <- lift (get parsedResponse (js "model")) ;;
      ret (or_else model (JString (js "openai/gpt-oss-20b:free")))
  end.

Section Rendering.

(** [Number::toString] of the runtime, for the number that a JSON numeral
    denotes; the handler is independent of what it is. *)
Variable Number_toString : Decimal -> JSString.

Fixpoint join (sep : JSString) (parts : list JSString) : JSString :=
  match parts with
  | [] => []
  | [p] => p
  | p :: parts' => p ++ sep ++ join sep parts'
  end.

(** [ToString] of a value that [JSON.parse] has produced: an array is the
    list of its elements separated by commas, with nothing for [null]. *)
Fixpoint toString (v : JSON) : JSString :=
  match v with
  | JNull => js "null"
  | JBool true => js "true"
  | JBool false => js "false"
  | JNumber n => Number_toString n
  | JString s => s
  | JArray items =>
      join (js ",")
        (map (fun item => match item with
                          | JNull => []
                          | _ => toString item
                          end) items)
  | JObject _ => js "[object Object]"
  end.

(** [`${reply}`] for a content that may be [null]. *)
Definition reply_text (reply : option JSString) : JSString :=
  match reply with
  | Some s => s
  | None => js "null"
  end.

(** The handler, from the decoded [message] of the request body on; its
    result is the [message] field of the response body. *)
Definition POST (openai : Upstream) (message : JSString) : M JSString :=
  model <- llmRouter openai message ;;
  response <- create openai (completionRequest model message) ;;
  reply <- lift (first_content response) ;;
  ret (js " Model: " ++ toString model
       ++ js " " ++ [0x0A; 0x0A; 0x0A] ++ js " Reply: " ++ reply_text reply).

End Rendering.

End Legacy.

(** ** The chat page (app/page): the functions without component state *)

Module Page.

(** [formatAssistantReply]: the canned reply for a response body that has
    neither of the expected shapes. *)
Definition formatAssistantReply (input : JSString) : M JSString :=
  let reply :=
    if (0 <? length (trim input))%nat then
      js "You said: " ++ quote :: trim input
      ++ quote :: js ". Here is a helpful response."
    else js "Hello! Ask me anything." in
  log Info "formatAssistantReply" ;;
  ret reply.

(** The [useMemo] callback of [canSend]. *)
Definition canSend (input : JSString) (isSending : bool) : bool :=
  (0 <? length (trim input))%nat && negb isSending.

End Page.

(** ** Auxiliary notions used in the proofs *)

(** Length of the longest prefix of [s] whose characters satisfy [p]. *)
Fixpoint run_length (p : char16 -> bool) (s : JSString) : nat :=
  match s with
  | [] => O
  | x :: s' => if p x then S (run_length p s') else O
  end.

(** The string does not begin with a character satisfying [p]. *)
Definition head_free (p : char16 -> bool) (s : JSString) : bool :=
  match s with
  | [] => true
  | x :: _ => negb (p x)
  end.

(** Every white space character of the string is a U+0020 that is not
    followed by another white space character. *)
Fixpoint spaced (s : JSString) : bool :=
  match s with
  | [] => true
  | x :: s' =>
      (if isWhiteSpace x then (x =? 0x20) && head_free isWhiteSpace s'
       else true)
      && spaced s'
  end.

(** The characters of the class [[.,\s]]. *)
Definition is_punct (c : char16) : bool := in_class false Sanitizer.punct c.

(** Does some artifact pattern of the sanitizer match somewhere in [s]? *)
Definition has_artifact (s : JSString) : bool :=
  existsb (fun pattern => test pattern s) Sanitizer.artifacts.

(** The two fallback decisions of the routing policy. *)
Definition fallback_decision : RoutingDecision :=
  {| rd_model := JString (js "openai/gpt-oss-20b:free");
     rd_reasoning := JString (js "Default fallback model for simple queries")
  |}.

Definition error_decision : RoutingDecision :=
  {| rd_model := JString (js "openai/gpt-oss-20b:free");
     rd_reasoning :=
       JString (js "Error in model selection, using default fallback") |}.

(** A completion with a single choice. *)
Definition completion_of (text : option JSString) : ChatCompletion :=
  {| choices := [{| choice_message := {| content := text |} |}] |}.

(** Providers for the examples: one that answers the classification
    request (the only one asking for JSON output) with [decision] after 5 ms
    and any other request with [reply] after 3 ms, and one whose calls are
    all rejected. *)
Definition provider (decision reply : option JSString) : Upstream :=
  fun req =>
    match req_response_format req with
    | Some _ => {| latency := 5; result := Normal (completion_of decision) |}
    | None => {| latency := 3; result := Normal (completion_of reply) |}
    end.


(** The events that are upstream calls. *)
Definition is_call (e : Event) : bool :=
  match e with
  | EvCreate _ => true
  | _ => false
  end.

(** The world after the classifier call of [llmRouter]. *)
Definition after_classifier (openai : Upstream) (message : JSString)
    (w : World) : World :=
  {| clock := clock w + Z.of_N (latency (openai (classifierRequest message)));
     events := (events w ++ [EvLog Info (js "Routing prompt")])
               ++ [EvCreate (classifierRequest message)] |}.

(** Classifier answers for the examples: an object without members, an
    object with a reasoning only, and one naming a model that the catalog
    does not have. *)
Definition empty_object : JSString := js "{}".

Definition reasoning_only : JSString :=
  js "{" ++ quoted "reasoning" ++ js ":" ++ quoted "because" ++ js "}".

Definition unknown_model : JSString :=
  js "{" ++ quoted "model" ++ js ":" ++ quoted "acme/unknown-1" ++ js "}".



Definition calls_of (r : Completion ChatResponse * World) : list Event :=
  filter is_call (events (snd r)).

(** The string does not end with a character satisfying [p]. *)
Definition ends_free (p : char16 -> bool) (s : JSString) : bool :=
  head_free p (rev s).

(** Every alternative of the pattern begins with a pattern character, so
    that its matches are not empty. *)
Definition starts_with_literal (re : RegExp) : bool :=
  forallb (fun alt => match alt with
                      | Lit _ :: _ => true
                      | _ => false
                      end) (disjunction re).

(** A classifier answer with a model outside the catalog and a reasoning. *)
Definition unknown_model_with_reason : JSString :=
  js "{" ++ quoted "model" ++ js ":" ++ quoted "acme/unknown-1" ++ js ","
  ++ quoted "reasoning" ++ js ":" ++ quoted "because" ++ js "}".
Import Sanitizer.

(** * Properties of the sanitizer *)

Section ReplaceFacts.

Local Open Scope nat_scope.

Lemma plus_greedy_le (p : char16 -> bool) (k : JSString -> option nat) :
  (forall s n, k s = Some n -> n <= length s) ->
  forall s n, plus_greedy p k s = Some n -> n <= length s.
Proof.
  intros Hk s; induction s as [|x s' IH]; intros n; simpl.
  - discriminate.
  - destruct (p x); [|discriminate].
    destruct (plus_greedy p k s') as [m|] eqn:E.
    + intros [= <-]. specialize (IH m eq_refl). lia.
    + destruct (k s') as [m|] eqn:Ek; simpl; [|discriminate].
      intros [= <-]. apply Hk in Ek. lia.
Qed.

Lemma plus_greedy_pos (p : char16 -> bool) (k : JSString -> option nat) :
  forall s n, plus_greedy p k s = Some n -> 1 <= n.
Proof.
  intros [|x s'] n; simpl; [discriminate|].
  destruct (p x); [|discriminate].
  destruct (plus_greedy p k s'); [intros [= <-]; lia|].
  destruct (k s'); simpl; [intros [= <-]; lia|discriminate].
Qed.

Lemma match_seq_le (ic : bool) (ts : list Term) :
  forall b s n, match_seq ic ts b s = Some n -> n <= length s.
Proof.
  induction ts as [|t ts' IH]; intros b s n; simpl.
  - intros [= <-]. lia.
  - destruct t.
    + destruct s as [|x s']; [discriminate|].
      destruct (char_matches ic c x); [|discriminate].
      destruct (match_seq ic ts' false s') as [m|] eqn:E; simpl; [|discriminate].
      intros [= <-]. apply IH in E. simpl. lia.
    + apply plus_greedy_le. intros s0 m. apply IH.
    + destruct b; [apply IH|discriminate].
    + destruct s; [apply IH|discriminate].
Qed.

Lemma match_here_le (re : RegExp) :
  forall b s n, match_here re b s = Some n -> n <= length s.
Proof.
  unfold match_here. generalize (ignoreCase re) as ic.
  induction (disjunction re) as [|a alts IH]; intros ic b s n; simpl.
  - discriminate.
  - destruct (match_seq ic a b s) as [m|] eqn:E.
    + intros [= <-]. eapply match_seq_le; eauto.
    + apply IH.
Qed.

(** A global replacement never lengthens the string when the replacement
    is no longer than any match. *)
Lemma replace_loop_length (re : RegExp) (by_ : JSString) :
  (forall b s n, match_here re b s = Some n -> length by_ <= n) ->
  forall s b k, length (replace_loop re by_ b k s) + Nat.min k (length s)
                <= length s.
Proof.
  intros Hby s; induction s as [|x s' IH]; intros b k.
  - destruct k; simpl; [|lia].
    destruct (match_here re b []) as [[|n]|] eqn:E; simpl.
    + apply Hby in E. rewrite length_app. simpl. lia.
    + apply match_here_le in E. simpl in E. lia.
    + lia.
  - destruct k; simpl.
    + destruct (match_here re b (x :: s')) as [[|n]|] eqn:E.
      * apply Hby in E. rewrite length_app. simpl.
        specialize (IH false 0). lia.
      * pose proof (Hby _ _ _ E). apply match_here_le in E. simpl in E.
        rewrite length_app. specialize (IH false n). lia.
      * simpl. specialize (IH false 0). lia.
    + specialize (IH false k). lia.
Qed.

Lemma replace_length (s : JSString) (re : RegExp) (by_ : JSString) :
  (forall b s n, match_here re b s = Some n -> length by_ <= n) ->
  length (replace s re by_) <= length s.
Proof.
  intros H. unfold replace.
  pose proof (replace_loop_length re by_ H s true 0). lia.
Qed.

Lemma replace_erase_length (s : JSString) (re : RegExp) :
  length (replace s re []) <= length s.
Proof. apply replace_length. intros; simpl; lia. Qed.

Lemma dropWhile_length (p : char16 -> bool) (s : JSString) :
  length (dropWhile p s) <= length s.
Proof.
  induction s as [|x s' IH]; simpl; [lia|].
  destruct (p x); simpl; lia.
Qed.

Lemma dropWhileEnd_length (p : char16 -> bool) (s : JSString) :
  length (dropWhileEnd p s) <= length s.
Proof.
  induction s as [|x s' IH]; [simpl; lia|].
  cbn [dropWhileEnd]. destruct (forallb p (x :: s')); simpl; lia.
Qed.

Lemma trim_length (s : JSString) : length (trim s) <= length s.
Proof.
  unfold trim.
  pose proof (dropWhileEnd_length isWhiteSpace (dropWhile isWhiteSpace s)).
  pose proof (dropWhile_length isWhiteSpace s). lia.
Qed.

End ReplaceFacts.

Section SanitizerLength.

Local Open Scope nat_scope.

Lemma removeArtifacts_length (response : JSString) :
  length (removeArtifacts response) <= length response.
Proof.
  unfold removeArtifacts. generalize artifacts as l. intros l. revert response.
  induction l as [|re l IH]; intros response; simpl; [lia|].
  specialize (IH (replace response re [])).
  pose proof (replace_erase_length response re). lia.
Qed.

Lemma whitespace_run_nonempty (b : bool) (s : JSString) (n : nat) :
  match_here whitespace_run b s = Some n -> length (js " ") <= n.
Proof.
  unfold match_here; simpl.
  destruct (plus_greedy _ _ s) as [m|] eqn:E; [|discriminate].
  intros [= <-]. eapply plus_greedy_pos; eauto.
Qed.

Lemma normalize_length (cleaned : JSString) :
  length (normalize cleaned) <= length cleaned.
Proof.
  unfold normalize.
  pose proof (replace_length cleaned whitespace_run (js " ")
                whitespace_run_nonempty).
  pose proof (trim_length (replace cleaned whitespace_run (js " "))).
  pose proof (replace_erase_length
                (trim (replace cleaned whitespace_run (js " ")))
                edge_punctuation).
  lia.
Qed.

Lemma cleanedForm_length (response : JSString) :
  length (cleanedForm response) <= length response.
Proof.
  unfold cleanedForm.
  pose proof (normalize_length (removeArtifacts response)).
  pose proof (removeArtifacts_length response). lia.
Qed.

(** C7. When the cleaned form of the input (after artifact removal,
    whitespace normalization and punctuation trimming) is shorter than 10
    code units, [cleanModelResponse] returns the original input. *)
Theorem clean_short_returns_original (x : JSString) :
  length (cleanedForm x) < 10 -> cleanModelResponse x = x.
Proof.
  intros H. unfold cleanModelResponse.
  destruct (is_empty x); [reflexivity|].
  apply Nat.ltb_lt in H. cbv zeta. rewrite H. reflexivity.
Qed.

Lemma clean_short_returns_original_witness :
  length (cleanedForm (js "short. ok")) < 10 /\
  cleanModelResponse (js "short. ok") = js "short. ok".
Proof.
  split; [vm_compute; lia|].
  apply (clean_short_returns_original (js "short. ok")). vm_compute; lia.
Defined.

(** C9. The result of [cleanModelResponse] is the original input or a
    string of at least 10 code units. *)
Theorem clean_original_or_long (x : JSString) :
  cleanModelResponse x = x \/ 10 <= length (cleanModelResponse x).
Proof.
  unfold cleanModelResponse.
  destruct (is_empty x); [left; reflexivity|]. cbv zeta.
  destruct (length (cleanedForm x) <? 10) eqn:E; [left; reflexivity|].
  right. apply Nat.ltb_ge in E. exact E.
Qed.

(** C10. [cleanModelResponse] never lengthens its input. *)
Theorem clean_never_lengthens (x : JSString) :
  length (cleanModelResponse x) <= length x.
Proof.
  unfold cleanModelResponse.
  destruct (is_empty x); [lia|]. cbv zeta.
  destruct (length (cleanedForm x) <? 10); [lia|].
  apply cleanedForm_length.
Qed.

End SanitizerLength.

(** ** The sanitizer and the runtime functions at concrete inputs *)

Example clean_empty : cleanModelResponse [] = [].
Proof. reflexivity. Qed.

Example clean_reply :
  cleanModelResponse
    (js "analysis the user wrote hello so answer: Hi there!")
  = js "the user wrote hello Hi there!".
Proof. vm_compute. reflexivity. Qed.

Example clean_case_and_line_breaks :
  cleanModelResponse (0x0A :: js "USER" ++ [0x09; 0x0A] ++ js "Wrote: It is 4, SHORT. ok., ")
  = js "It is 4, ok".
Proof. vm_compute. reflexivity. Qed.

Example clean_gate : cleanModelResponse (js "analysis: 42.") = js "analysis: 42.".
Proof. vm_compute. reflexivity. Qed.

Example edge_punctuation_keeps_inner :
  replace (js ".. a, b ,.") edge_punctuation [] = js "a, b".
Proof. vm_compute. reflexivity. Qed.

Example plus_gives_back :
  match_seq false (Plus punct :: lits ".x") true (js ",..x") = Some 4%nat.
Proof. vm_compute. reflexivity. Qed.

Example parse_decision :
  JSON_parse (js " {" ++ quoted "model" ++ js ": " ++ quoted "openai/gpt-5-mini"
              ++ js ", " ++ quoted "reasoning" ++ js ": " ++ quoted "math"
              ++ js "} ")
  = Normal (JObject [(js "model", JString (js "openai/gpt-5-mini"));
                     (js "reasoning", JString (js "math"))]).
Proof. vm_compute. reflexivity. Qed.

Example parse_rejects_trailing_comma : JSON_parse (js "[1,]") = Throw SyntaxError.
Proof. vm_compute. reflexivity. Qed.

Example parse_number_underflow :
  option_map (fun p => truthy (JNumber (fst p))) (parse_number (js "1e-400"))
  = Some false.
Proof. vm_compute. reflexivity. Qed.

(** ** The matches of the two normalization patterns *)

Section NormalizeFacts.

Local Open Scope nat_scope.

Lemma plus_greedy_ext (p q : char16 -> bool) (k k' : JSString -> option nat) :
  (forall c, p c = q c) -> (forall s, k s = k' s) ->
  forall s, plus_greedy p k s = plus_greedy q k' s.
Proof.
  intros Hp Hk s; induction s as [|x s' IH]; simpl; [reflexivity|].
  rewrite Hp, IH, Hk. reflexivity.
Qed.

(** [cls+] at the end of a pattern takes the whole run. *)
Lemma plus_greedy_run (p : char16 -> bool) (s : JSString) :
  plus_greedy p (fun _ => Some 0) s =
  match run_length p s with 0 => None | S n => Some (S n) end.
Proof.
  induction s as [|x s' IH]; simpl; [reflexivity|].
  destruct (p x); [|reflexivity].
  rewrite IH. destruct (run_length p s'); reflexivity.
Qed.

(** [cls+$] matches exactly when the rest of the input is in the class. *)
Lemma plus_greedy_eol (p : char16 -> bool) (s : JSString) :
  plus_greedy p (fun r => if is_empty r then Some 0 else None) s =
  if forallb p s && negb (is_empty s) then Some (length s) else None.
Proof.
  induction s as [|x s' IH]; simpl; [reflexivity|].
  destruct (p x); simpl; [|reflexivity].
  rewrite IH. destruct s' as [|y s'']; simpl; [reflexivity|].
  rewrite andb_true_r. destruct (p y && forallb p s''); reflexivity.
Qed.

Lemma run_length_le (p : char16 -> bool) (s : JSString) :
  run_length p s <= length s.
Proof.
  induction s as [|x s' IH]; simpl; [lia|]. destruct (p x); lia.
Qed.

Lemma skipn_run_length (p : char16 -> bool) (s : JSString) :
  skipn (run_length p s) s = dropWhile p s.
Proof.
  induction s as [|x s' IH]; simpl; [reflexivity|].
  destruct (p x); simpl; [exact IH|reflexivity].
Qed.

Lemma head_free_run_length (p : char16 -> bool) (s : JSString) :
  head_free p s = true -> run_length p s = 0.
Proof.
  destruct s as [|x s']; simpl; [reflexivity|].
  destruct (p x); [discriminate|reflexivity].
Qed.

Lemma match_here_whitespace_run (b : bool) (s : JSString) :
  match_here whitespace_run b s =
  match run_length isWhiteSpace s with 0 => None | S n => Some (S n) end.
Proof.
  unfold match_here; simpl.
  rewrite (plus_greedy_ext _ isWhiteSpace _ (fun _ => Some 0)).
  - rewrite plus_greedy_run. destruct (run_length isWhiteSpace s); reflexivity.
  - intros c. apply orb_false_r.
  - reflexivity.
Qed.

Lemma match_here_edge_punctuation (b : bool) (s : JSString) :
  match_here edge_punctuation b s =
  match (if b then run_length is_punct s else 0) with
  | S n => Some (S n)
  | 0 => if forallb is_punct s && negb (is_empty s) then Some (length s)
         else None
  end.
Proof.
  unfold match_here; simpl.
  rewrite (plus_greedy_ext (in_class false punct) is_punct
             (fun r => match r with [] => Some 0 | _ :: _ => None end)
             (fun r => if is_empty r then Some 0 else None));
    [|reflexivity|intros [|? ?]; reflexivity].
  rewrite plus_greedy_eol.
  destruct b.
  - rewrite (plus_greedy_ext (in_class false punct) is_punct
               _ (fun _ => Some 0)); [|reflexivity|reflexivity].
    rewrite plus_greedy_run.
    destruct (run_length is_punct s); [|reflexivity].
    destruct (forallb is_punct s && negb (is_empty s)); reflexivity.
  - destruct (forallb is_punct s && negb (is_empty s)); reflexivity.
Qed.

(** Passing over [k] matched code units, then scanning. *)
Lemma replace_loop_skip (re : RegExp) (by_ : JSString) :
  forall k s, k <= length s ->
  replace_loop re by_ false k s = replace_loop re by_ false 0 (skipn k s).
Proof.
  induction k as [|k IH]; intros s Hk; [reflexivity|].
  destruct s as [|x s']; simpl in Hk; [lia|].
  simpl. apply IH. lia.
Qed.

(** Where the pattern matches nowhere, [replace] returns its input. *)
Lemma replace_loop_no_match (re : RegExp) (by_ : JSString) :
  forall s b, search re b s = false -> replace_loop re by_ b 0 s = s.
Proof.
  induction s as [|x s' IH]; intros b; simpl.
  - destruct (match_here re b []); [discriminate|reflexivity].
  - destruct (match_here re b (x :: s')); [discriminate|].
    intros H. rewrite (IH false H). reflexivity.
Qed.

End NormalizeFacts.

(** ** Normal forms: [normalize] is idempotent *)

Section NormalForm.

Local Open Scope nat_scope.

Lemma spaced_tail (x : char16) (s : JSString) :
  spaced (x :: s) = true -> spaced s = true.
Proof. simpl. intros H. apply andb_prop in H. tauto. Qed.

Lemma head_free_weaken (p q : char16 -> bool) (s : JSString) :
  (forall c, q c = true -> p c = true) ->
  head_free p s = true -> head_free q s = true.
Proof.
  intros Hsub. destruct s as [|x s']; simpl; [reflexivity|].
  destruct (q x) eqn:E; [|reflexivity].
  rewrite (Hsub x E). discriminate.
Qed.

Lemma head_free_dropWhile (p : char16 -> bool) (s : JSString) :
  head_free p (dropWhile p s) = true.
Proof.
  induction s as [|x s' IH]; simpl; [reflexivity|].
  destruct (p x) eqn:E; [exact IH|]. simpl. rewrite E. reflexivity.
Qed.

Lemma head_free_dropWhileEnd (p q : char16 -> bool) (s : JSString) :
  head_free q s = true -> head_free q (dropWhileEnd p s) = true.
Proof.
  destruct s as [|x s']; [reflexivity|].
  cbn [dropWhileEnd]. destruct (forallb p (x :: s')); [reflexivity|].
  simpl. exact (fun H => H).
Qed.

Lemma dropWhile_head_free (p : char16 -> bool) (s : JSString) :
  head_free p s = true -> dropWhile p s = s.
Proof.
  destruct s as [|x s']; simpl; [reflexivity|].
  destruct (p x); [discriminate|reflexivity].
Qed.

Lemma forallb_dropWhileEnd (p : char16 -> bool) (s : JSString) :
  forallb p (dropWhileEnd p s) = true -> forallb p s = true.
Proof.
  induction s as [|x s' IH]; [reflexivity|].
  cbn [dropWhileEnd]. destruct (forallb p (x :: s')) eqn:E; [reflexivity|].
  simpl in *. intros H. apply andb_prop in H. destruct H as [Hx HD].
  rewrite Hx, (IH HD) in E. discriminate.
Qed.

Lemma forallb_weaken (p q : char16 -> bool) (s : JSString) :
  (forall c, q c = true -> p c = true) ->
  forallb q s = true -> forallb p s = true.
Proof.
  intros Hsub. induction s as [|x s' IH]; simpl; [reflexivity|].
  intros H. apply andb_prop in H. destruct H as [Hx Hs].
  rewrite (Hsub x Hx), (IH Hs). reflexivity.
Qed.

(** Trimming a smaller class from the end, after a larger one, removes
    nothing. *)
Lemma dropWhileEnd_twice (p q : char16 -> bool) (s : JSString) :
  (forall c, q c = true -> p c = true) ->
  dropWhileEnd q (dropWhileEnd p s) = dropWhileEnd p s.
Proof.
  intros Hsub. induction s as [|x s' IH]; [reflexivity|].
  cbn [dropWhileEnd]. destruct (forallb p (x :: s')) eqn:E; [reflexivity|].
  cbn [dropWhileEnd].
  destruct (forallb q (x :: dropWhileEnd p s')) eqn:Eq.
  - apply (forallb_weaken p q _ Hsub) in Eq.
    assert (forallb p (x :: s') = true) as C.
    { simpl in *. apply andb_prop in Eq. destruct Eq as [Hx HD].
      rewrite Hx, (forallb_dropWhileEnd p s' HD). reflexivity. }
    rewrite C in E. discriminate.
  - rewrite IH. reflexivity.
Qed.

Lemma spaced_dropWhile (p : char16 -> bool) (s : JSString) :
  spaced s = true -> spaced (dropWhile p s) = true.
Proof.
  induction s as [|x s' IH]; [reflexivity|].
  intros H. cbn [dropWhile]. destruct (p x); [|exact H].
  apply IH. exact (spaced_tail _ _ H).
Qed.

Lemma spaced_dropWhileEnd (p : char16 -> bool) (s : JSString) :
  spaced s = true -> spaced (dropWhileEnd p s) = true.
Proof.
  induction s as [|x s' IH]; [reflexivity|].
  intros H. cbn [dropWhileEnd]. destruct (forallb p (x :: s')); [reflexivity|].
  pose proof (spaced_tail _ _ H) as Ht.
  simpl in H |- *. apply andb_prop in H. destruct H as [Hx _].
  rewrite (IH Ht), andb_true_r.
  destruct (isWhiteSpace x); [|reflexivity].
  apply andb_prop in Hx. destruct Hx as [H32 Hfree].
  rewrite H32. simpl. apply head_free_dropWhileEnd. exact Hfree.
Qed.

(** The result of [/\s+/g -> " "] has single spaces only; on such strings
    the replacement changes nothing. *)
Lemma collapse_spaced (s : JSString) :
  (forall b, spaced (replace_loop whitespace_run (js " ") b 0 s) = true) /\
  spaced (replace_loop whitespace_run (js " ") false
            (run_length isWhiteSpace s) s) = true /\
  head_free isWhiteSpace
    (replace_loop whitespace_run (js " ") false
       (run_length isWhiteSpace s) s) = true.
Proof.
  change (js " ") with [32%Z].
  induction s as [|x s' (IH0 & IHs & IHh)].
  - repeat split; try intros b; reflexivity.
  - assert (forall b,
      spaced (replace_loop whitespace_run [32%Z] b 0 (x :: s')) = true) as H0.
    { intros b. cbn [replace_loop]. rewrite match_here_whitespace_run.
      cbn [run_length]. destruct (isWhiteSpace x) eqn:Ex.
      - cbn [app spaced]. rewrite IHs, IHh. reflexivity.
      - cbn [spaced]. rewrite Ex, IH0. reflexivity. }
    split; [exact H0|].
    cbn [run_length]. destruct (isWhiteSpace x) eqn:Ex.
    + cbn [replace_loop]. split; assumption.
    + split; [apply H0|].
      cbn [replace_loop]. rewrite match_here_whitespace_run.
      cbn [run_length]. rewrite Ex. simpl. rewrite Ex. reflexivity.
Qed.

Lemma collapse_id (s : JSString) :
  spaced s = true -> forall b,
  replace_loop whitespace_run (js " ") b 0 s = s.
Proof.
  change (js " ") with [32%Z].
  induction s as [|x s' IH]; intros H b.
  - reflexivity.
  - pose proof (spaced_tail _ _ H) as Ht.
    cbn [replace_loop]. rewrite match_here_whitespace_run.
    cbn [run_length]. simpl in H. apply andb_prop in H. destruct H as [Hx _].
    destruct (isWhiteSpace x).
    + apply andb_prop in Hx. destruct Hx as [H32 Hfree].
      rewrite (head_free_run_length _ _ Hfree).
      apply Z.eqb_eq in H32. subst x. cbn [app].
      rewrite (IH Ht false). reflexivity.
    + rewrite (IH Ht false). reflexivity.
Qed.

(** [/^[.,\s]+|[.,\s]+$/g -> ""] removes the leading and the trailing run
    of the class. *)
Lemma strip_inner (s : JSString) :
  replace_loop edge_punctuation [] false 0 s = dropWhileEnd is_punct s.
Proof.
  induction s as [|x s' IH]; [reflexivity|].
  cbn [replace_loop dropWhileEnd]. rewrite match_here_edge_punctuation.
  cbn [is_empty negb]. rewrite andb_true_r.
  destruct (forallb is_punct (x :: s')).
  - cbn [length app]. rewrite replace_loop_skip by lia.
    rewrite skipn_all. reflexivity.
  - rewrite IH. reflexivity.
Qed.

Lemma strip_spec (s : JSString) :
  replace s edge_punctuation [] = dropWhileEnd is_punct (dropWhile is_punct s).
Proof.
  unfold replace. destruct s as [|x s']; [reflexivity|].
  cbn [replace_loop]. rewrite match_here_edge_punctuation.
  cbn [run_length dropWhile]. destruct (is_punct x) eqn:Ex.
  - cbn [app]. rewrite replace_loop_skip by apply run_length_le.
    rewrite skipn_run_length. apply strip_inner.
  - cbn [forallb]. rewrite Ex. cbn [andb dropWhileEnd forallb]. rewrite Ex.
    cbn [andb]. rewrite strip_inner. reflexivity.
Qed.

Lemma white_is_punct (c : char16) : isWhiteSpace c = true -> is_punct c = true.
Proof.
  intros H. unfold is_punct, in_class, punct. simpl. rewrite H.
  rewrite !orb_true_r. reflexivity.
Qed.

Lemma normalize_spec (s : JSString) :
  normalize s =
  dropWhileEnd is_punct
    (dropWhile is_punct (trim (replace s whitespace_run (js " ")))).
Proof. unfold normalize. apply strip_spec. Qed.

Lemma normalize_spaced (s : JSString) : spaced (normalize s) = true.
Proof.
  rewrite normalize_spec. apply spaced_dropWhileEnd, spaced_dropWhile.
  unfold trim. apply spaced_dropWhileEnd, spaced_dropWhile.
  apply (collapse_spaced s).
Qed.

Lemma normalize_head_free (s : JSString) :
  head_free is_punct (normalize s) = true.
Proof.
  rewrite normalize_spec. apply head_free_dropWhileEnd, head_free_dropWhile.
Qed.

Lemma normalize_idempotent (s : JSString) :
  normalize (normalize s) = normalize s.
Proof.
  pose proof (normalize_spaced s) as Hsp.
  pose proof (normalize_head_free s) as Hhd.
  rewrite (normalize_spec (normalize s)).
  unfold replace. rewrite (collapse_id _ Hsp true).
  unfold trim.
  rewrite (dropWhile_head_free isWhiteSpace)
    by (apply (head_free_weaken is_punct); [apply white_is_punct|exact Hhd]).
  rewrite normalize_spec in Hhd |- *.
  rewrite (dropWhileEnd_twice is_punct isWhiteSpace) by apply white_is_punct.
  rewrite (dropWhile_head_free is_punct) by exact Hhd.
  apply dropWhileEnd_twice. auto.
Qed.

Lemma removeArtifacts_clean (s : JSString) :
  has_artifact s = false -> removeArtifacts s = s.
Proof.
  unfold has_artifact, removeArtifacts. generalize artifacts as l.
  induction l as [|re l IH]; cbn [fold_left existsb]; [reflexivity|].
  intros H. apply orb_false_elim in H. destruct H as [Hre Hl].
  unfold replace at 2. rewrite (replace_loop_no_match re [] s true Hre).
  apply IH. exact Hl.
Qed.

(** C2, as stated, fails: removing an artifact can splice a new one
    together, and a second pass removes it. *)
Lemma clean_not_idempotent :
  10 <= length (cleanedForm (js "anaanalysislysis of the data")) /\
  cleanModelResponse (js "anaanalysislysis of the data")
    = js "analysis of the data" /\
  cleanModelResponse (cleanModelResponse (js "anaanalysislysis of the data"))
    = js "of the data" /\
  cleanModelResponse (cleanModelResponse (js "anaanalysislysis of the data"))
    <> cleanModelResponse (js "anaanalysislysis of the data").
Proof.
  split; [vm_compute; lia|].
  split; [vm_compute; reflexivity|].
  split; [vm_compute; reflexivity|].
  vm_compute. discriminate.
Qed.

(** C2 (amended). When the cleaned form of the input has at least 10 code
    units and no artifact pattern matches in it any more, cleaning the
    result again changes nothing. *)
Theorem clean_idempotent_without_residue (x : JSString) :
  10 <= length (cleanedForm x) ->
  has_artifact (cleanedForm x) = false ->
  cleanModelResponse (cleanModelResponse x) = cleanModelResponse x.
Proof.
  intros Hlen Hres.
  assert (cleanModelResponse x = cleanedForm x) as Hc.
  { unfold cleanModelResponse. destruct (is_empty x) eqn:Ex.
    - destruct x; [|discriminate]. vm_compute in Hlen. lia.
    - cbv zeta. apply Nat.ltb_ge in Hlen. rewrite Hlen. reflexivity. }
  rewrite Hc.
  assert (cleanedForm (cleanedForm x) = cleanedForm x) as Hid.
  { unfold cleanedForm at 1. rewrite (removeArtifacts_clean _ Hres).
    unfold cleanedForm. apply normalize_idempotent. }
  unfold cleanModelResponse at 1.
  destruct (cleanedForm x) as [|c s] eqn:E; [reflexivity|].
  cbn [is_empty]. cbv zeta. rewrite Hid.
  apply Nat.ltb_ge in Hlen. rewrite Hlen. reflexivity.
Qed.

Lemma clean_idempotent_without_residue_witness :
  10 <= length (cleanedForm (js "analysis  Hello   world, this is fine. ")) /\
  has_artifact (cleanedForm (js "analysis  Hello   world, this is fine. "))
    = false /\
  cleanModelResponse
    (cleanModelResponse (js "analysis  Hello   world, this is fine. "))
  = cleanModelResponse (js "analysis  Hello   world, this is fine. ").
Proof.
  split; [vm_compute; lia|]. split; [vm_compute; reflexivity|].
  apply (clean_idempotent_without_residue
           (js "analysis  Hello   world, this is fine. "));
    [vm_compute; lia|vm_compute; reflexivity].
Defined.

End NormalForm.

(** * [JSON.parse]: the recursion budget is never used up *)

Section ParserBudget.

Local Open Scope nat_scope.

Ltac crunch :=
  repeat match goal with
         | H : Some _ = Some _ |- _ => inversion H; subst; clear H
         | H : Parsed _ _ = Parsed _ _ |- _ => inversion H; subst; clear H
         | H : (_, _) = (_, _) |- _ => inversion H; subst; clear H
         | H : None = Some _ |- _ => discriminate H
         | H : Invalid = Parsed _ _ |- _ => discriminate H
         | H : Exhausted = Parsed _ _ |- _ => discriminate H
         | H : context [if ?b then _ else _] |- _ => destruct b eqn:?
         | H : context [match ?x with _ => _ end] |- _ => destruct x eqn:?
         end.

Lemma skip_ws_length (s : JSString) : length (skip_ws s) <= length s.
Proof. apply dropWhile_length. Qed.

Lemma skip_ws_cons (s r : JSString) (c : char16) :
  skip_ws s = c :: r -> S (length r) <= length s.
Proof.
  intros H. pose proof (skip_ws_length s) as L. rewrite H in L. exact L.
Qed.

Lemma parse_string_chars_rest (s str rest : JSString) :
  parse_string_chars s = Some (str, rest) -> length rest <= length s.
Proof.
  remember (length s) as n eqn:Hn.
  assert (length s <= n) as Hle by lia. clear Hn.
  revert s str rest Hle.
  induction n as [|n IH]; intros s str rest Hle H.
  - destruct s; [discriminate|simpl in Hle; lia].
  - destruct s as [|c s1]; [discriminate|].
    simpl in Hle. cbn [parse_string_chars] in H.
    destruct (c =? quote)%Z; [crunch; simpl; lia|].
    destruct (c =? backslash)%Z.
    + destruct s1 as [|e s2]; [discriminate|].
      destruct (e =? ch "u")%Z.
      * destruct s2 as [|h1 [|h2 [|h3 [|h4 s3]]]]; try discriminate.
        destruct (hex4 h1 h2 h3 h4); [|discriminate].
        destruct (parse_string_chars s3) as [[str' rest']|] eqn:E;
          [|discriminate].
        crunch. apply IH in E; simpl in *; lia.
      * destruct (escape e); [|discriminate].
        destruct (parse_string_chars s2) as [[str' rest']|] eqn:E;
          [|discriminate].
        crunch. apply IH in E; simpl in *; lia.
    + destruct (c <? 32)%Z; [discriminate|].
      destruct (parse_string_chars s1) as [[str' rest']|] eqn:E;
        [|discriminate].
      crunch. apply IH in E; simpl in *; lia.
Qed.

Lemma take_digits_rest (s : JSString) :
  forall (acc v : Z) (n : nat) (rest : JSString),
  take_digits acc s = (v, n, rest) -> length rest <= length s.
Proof.
  induction s as [|c s' IH]; intros acc v n rest H; simpl in H.
  - crunch. simpl. lia.
  - destruct (is_digit c).
    + destruct (take_digits (acc * 10 + (c - 48)) s') as [[v' n'] rest'] eqn:E.
      crunch. apply IH in E. simpl. lia.
    + crunch. simpl. lia.
Qed.

Lemma parse_number_rest (s rest : JSString) (d : Decimal) :
  parse_number s = Some (d, rest) -> length rest <= length s.
Proof.
  unfold parse_number. intros H. crunch;
    repeat match goal with
           | E : take_digits _ _ = _ |- _ => apply take_digits_rest in E
           end; simpl in *; lia.
Qed.

Lemma literal_rest (word : string) (v v' : JSON) (s rest : JSString) :
  literal word v s = Parsed v' rest -> length rest <= length s.
Proof.
  unfold literal. destruct (startsWith (js word) s); [|discriminate].
  intros [= _ <-]. rewrite length_skipn. lia.
Qed.

(** Parsing consumes text. *)
Lemma parse_rest (fuel : nat) :
  (forall s v rest,
     parse_value fuel s = Parsed v rest -> length rest <= length s) /\
  (forall s vs rest,
     parse_elements fuel s = Parsed vs rest -> length rest <= length s) /\
  (forall s ms rest,
     parse_members fuel s = Parsed ms rest -> length rest <= length s).
Proof.
  induction fuel as [|fuel (IHv & IHe & IHm)];
    [repeat split; intros; discriminate|].
  repeat split.
  - intros s v rest H. cbn [parse_value] in H.
    destruct (skip_ws s) as [|c r] eqn:Es; [discriminate|].
    apply skip_ws_cons in Es.
    destruct (c =? ch "{")%Z.
    { destruct (skip_ws r) as [|c' r'] eqn:Er; [discriminate|].
      apply skip_ws_cons in Er.
      destruct (c' =? ch "}")%Z; [crunch; lia|].
      destruct (parse_members fuel r) eqn:E; crunch. apply IHm in E. lia. }
    destruct (c =? ch "[")%Z.
    { destruct (skip_ws r) as [|c' r'] eqn:Er; [discriminate|].
      apply skip_ws_cons in Er.
      destruct (c' =? ch "]")%Z; [crunch; lia|].
      destruct (parse_elements fuel r) eqn:E; crunch. apply IHe in E. lia. }
    destruct (c =? quote)%Z.
    { destruct (parse_string_chars r) as [[str rest']|] eqn:E; crunch.
      apply parse_string_chars_rest in E. lia. }
    destruct (c =? ch "t")%Z; [apply literal_rest in H; simpl in H; lia|].
    destruct (c =? ch "f")%Z; [apply literal_rest in H; simpl in H; lia|].
    destruct (c =? ch "n")%Z; [apply literal_rest in H; simpl in H; lia|].
    destruct (parse_number (c :: r)) as [[n rest']|] eqn:E; crunch.
    apply parse_number_rest in E. simpl in E. lia.
  - intros s vs rest H. cbn [parse_elements] in H.
    destruct (parse_value fuel s) as [v r| |] eqn:Ev; try discriminate.
    apply IHv in Ev.
    destruct (skip_ws r) as [|c r'] eqn:Er; [discriminate|].
    apply skip_ws_cons in Er.
    destruct (c =? ch ",")%Z.
    { destruct (parse_elements fuel r') eqn:E; crunch. apply IHe in E. lia. }
    destruct (c =? ch "]")%Z; crunch. lia.
  - intros s ms rest H. cbn [parse_members] in H.
    destruct (skip_ws s) as [|c r] eqn:Es; [discriminate|].
    apply skip_ws_cons in Es.
    destruct (c =? quote)%Z; [|discriminate].
    destruct (parse_string_chars r) as [[key r1]|] eqn:Ek; [|discriminate].
    apply parse_string_chars_rest in Ek.
    destruct (skip_ws r1) as [|c1 r2] eqn:E1; [discriminate|].
    apply skip_ws_cons in E1.
    destruct (c1 =? ch ":")%Z; [|discriminate].
    destruct (parse_value fuel r2) as [v r3| |] eqn:Ev; try discriminate.
    apply IHv in Ev.
    destruct (skip_ws r3) as [|c3 r4] eqn:E3; [discriminate|].
    apply skip_ws_cons in E3.
    destruct (c3 =? ch ",")%Z.
    { destruct (parse_members fuel r4) eqn:E; crunch. apply IHm in E. lia. }
    destruct (c3 =? ch "}")%Z; crunch. lia.
Qed.

(** Two steps per code unit are enough. *)
Lemma parse_budget (fuel : nat) :
  (forall s, 2 * length s + 1 <= fuel -> parse_value fuel s <> Exhausted) /\
  (forall s, 2 * length s + 2 <= fuel -> parse_elements fuel s <> Exhausted)
  /\
  (forall s, 2 * length s + 2 <= fuel -> parse_members fuel s <> Exhausted).
Proof.
  induction fuel as [|fuel (IHv & IHe & IHm)];
    [repeat split; intros; lia|].
  repeat split.
  - intros s Hf. cbn [parse_value].
    destruct (skip_ws s) as [|c r] eqn:Es; [discriminate|].
    apply skip_ws_cons in Es.
    destruct (c =? ch "{")%Z.
    { destruct (skip_ws r) as [|c' r'] eqn:Er; [discriminate|].
      destruct (c' =? ch "}")%Z; [discriminate|].
      destruct (parse_members fuel r) eqn:E; try discriminate.
      exfalso. apply (IHm r); [lia|exact E]. }
    destruct (c =? ch "[")%Z.
    { destruct (skip_ws r) as [|c' r'] eqn:Er; [discriminate|].
      destruct (c' =? ch "]")%Z; [discriminate|].
      destruct (parse_elements fuel r) eqn:E; try discriminate.
      exfalso. apply (IHe r); [lia|exact E]. }
    destruct (c =? quote)%Z.
    { destruct (parse_string_chars r) as [[str rest']|]; discriminate. }
    unfold literal.
    destruct (c =? ch "t")%Z; [destruct (startsWith _ _); discriminate|].
    destruct (c =? ch "f")%Z; [destruct (startsWith _ _); discriminate|].
    destruct (c =? ch "n")%Z; [destruct (startsWith _ _); discriminate|].
    destruct (parse_number (c :: r)) as [[n rest']|]; discriminate.
  - intros s Hf. cbn [parse_elements].
    destruct (parse_value fuel s) as [v r| |] eqn:Ev; try discriminate.
    + apply (proj1 (parse_rest fuel)) in Ev.
      destruct (skip_ws r) as [|c r'] eqn:Er; [discriminate|].
      apply skip_ws_cons in Er.
      destruct (c =? ch ",")%Z.
      { destruct (parse_elements fuel r') eqn:E; try discriminate.
        exfalso. apply (IHe r'); [lia|exact E]. }
      destruct (c =? ch "]")%Z; discriminate.
    + exfalso. apply (IHv s); [lia|exact Ev].
  - intros s Hf. cbn [parse_members].
    destruct (skip_ws s) as [|c r] eqn:Es; [discriminate|].
    apply skip_ws_cons in Es.
    destruct (c =? quote)%Z; [|discriminate].
    destruct (parse_string_chars r) as [[key r1]|] eqn:Ek; [|discriminate].
    apply parse_string_chars_rest in Ek.
    destruct (skip_ws r1) as [|c1 r2] eqn:E1; [discriminate|].
    apply skip_ws_cons in E1.
    destruct (c1 =? ch ":")%Z; [|discriminate].
    destruct (parse_value fuel r2) as [v r3| |] eqn:Ev; try discriminate.
    + apply (proj1 (parse_rest fuel)) in Ev.
      destruct (skip_ws r3) as [|c3 r4] eqn:E3; [discriminate|].
      apply skip_ws_cons in E3.
      destruct (c3 =? ch ",")%Z.
      { destruct (parse_members fuel r4) eqn:E; try discriminate.
        exfalso. apply (IHm r4); [lia|exact E]. }
      destruct (c3 =? ch "}")%Z; discriminate.
    + exfalso. apply (IHv r2); [lia|exact Ev].
Qed.

Lemma parse_elements_step (fuel : nat) (s : JSString) :
  parse_elements (S fuel) s =
  match parse_value fuel s with
  | Parsed v r =>
      match skip_ws r with
      | c :: r' =>
          if (c =? ch ",")%Z then
            match parse_elements fuel r' with
            | Parsed vs rest => Parsed (v :: vs) rest
            | Invalid => Invalid
            | Exhausted => Exhausted
            end
          else if (c =? ch "]")%Z then Parsed [v] r'
          else Invalid
      | [] => Invalid
      end
  | Invalid => Invalid
  | Exhausted => Exhausted
  end.
Proof. reflexivity. Qed.

Lemma parse_members_step (fuel : nat) (s : JSString) :
  parse_members (S fuel) s =
  match skip_ws s with
  | c :: r =>
      if (c =? quote)%Z then
        match parse_string_chars r with
        | Some (key, r1) =>
            match skip_ws r1 with
            | c1 :: r2 =>
                if (c1 =? ch ":")%Z then
                  match parse_value fuel r2 with
                  | Parsed v r3 =>
                      match skip_ws r3 with
                      | c3 :: r4 =>
                          if (c3 =? ch ",")%Z then
                            match parse_members fuel r4 with
                            | Parsed ms rest => Parsed ((key, v) :: ms) rest
                            | Invalid => Invalid
                            | Exhausted => Exhausted
                            end
                          else if (c3 =? ch "}")%Z then Parsed [(key, v)] r4
                          else Invalid
                      | [] => Invalid
                      end
                  | Invalid => Invalid
                  | Exhausted => Exhausted
                  end
                else Invalid
            | [] => Invalid
            end
        | None => Invalid
        end
      else Invalid
  | [] => Invalid
  end.
Proof. reflexivity. Qed.

(** A result obtained within the budget does not depend on it. *)
Lemma parse_fuel_step (fuel : nat) :
  (forall s, parse_value fuel s <> Exhausted ->
             parse_value (S fuel) s = parse_value fuel s) /\
  (forall s, parse_elements fuel s <> Exhausted ->
             parse_elements (S fuel) s = parse_elements fuel s) /\
  (forall s, parse_members fuel s <> Exhausted ->
             parse_members (S fuel) s = parse_members fuel s).
Proof.
  induction fuel as [|fuel (IHv & IHe & IHm)];
    [repeat split; intros s H; exfalso; apply H; reflexivity|].
  repeat split.
  - intros s. cbn [parse_value].
    destruct (skip_ws s) as [|c r]; [reflexivity|].
    destruct (c =? ch "{")%Z.
    { destruct (skip_ws r) as [|c' r']; [reflexivity|].
      destruct (c' =? ch "}")%Z; [reflexivity|].
      intros H. rewrite IHm; [reflexivity|].
      intros E. rewrite E in H. apply H. reflexivity. }
    destruct (c =? ch "[")%Z; [|reflexivity].
    destruct (skip_ws r) as [|c' r']; [reflexivity|].
    destruct (c' =? ch "]")%Z; [reflexivity|].
    intros H. rewrite IHe; [reflexivity|].
    intros E. rewrite E in H. apply H. reflexivity.
  - intros s H.
    rewrite (parse_elements_step (S fuel) s).
    rewrite (parse_elements_step fuel s) in H |- *.
    destruct (parse_value fuel s) as [v r| |] eqn:Ev;
      [|rewrite IHv, Ev by (rewrite Ev; discriminate); reflexivity
       |exfalso; apply H; reflexivity].
    rewrite IHv, Ev by (rewrite Ev; discriminate).
    destruct (skip_ws r) as [|c r']; [reflexivity|].
    destruct (c =? ch ",")%Z; [|reflexivity].
    rewrite IHe; [reflexivity|].
    intros E. rewrite E in H. apply H. reflexivity.
  - intros s H.
    rewrite (parse_members_step (S fuel) s).
    rewrite (parse_members_step fuel s) in H |- *.
    destruct (skip_ws s) as [|c r]; [reflexivity|].
    destruct (c =? quote)%Z; [|reflexivity].
    destruct (parse_string_chars r) as [[key r1]|]; [|reflexivity].
    destruct (skip_ws r1) as [|c1 r2]; [reflexivity|].
    destruct (c1 =? ch ":")%Z; [|reflexivity].
    destruct (parse_value fuel r2) as [v r3| |] eqn:Ev;
      [|rewrite IHv, Ev by (rewrite Ev; discriminate); reflexivity
       |exfalso; apply H; reflexivity].
    rewrite IHv, Ev by (rewrite Ev; discriminate).
    destruct (skip_ws r3) as [|c3 r4]; [reflexivity|].
    destruct (c3 =? ch ",")%Z; [|reflexivity].
    rewrite IHm; [reflexivity|].
    intros E. rewrite E in H. apply H. reflexivity.
Qed.

Lemma parse_value_more_fuel (text : JSString) (extra : nat) :
  parse_value (extra + budget text) text = parse_value (budget text) text.
Proof.
  induction extra as [|extra IH]; [reflexivity|].
  cbn [Nat.add]. rewrite (proj1 (parse_fuel_step _)); [exact IH|].
  rewrite IH. apply (proj1 (parse_budget (budget text))). unfold budget. lia.
Qed.

(** [JSON_parse] never fails for lack of budget: a [SyntaxError] always
    comes from the text. *)
Lemma parse_value_budget (text : JSString) :
  parse_value (budget text) text <> Exhausted.
Proof. apply (proj1 (parse_budget (budget text))). unfold budget. lia. Qed.

End ParserBudget.

(** * Properties of the routing policy *)

Section RoutingFacts.

Variable openai : Upstream.
Variable message : JSString.

Lemma llmRouter_rejected (w : World) (e : Error) :
  result (openai (classifierRequest message)) = Throw e ->
  llmRouter openai message w = (Throw e, after_classifier openai message w).
Proof.
  intros H. unfold llmRouter, bind, log, create, record. cbn [clock events].
  rewrite H. reflexivity.
Qed.

Lemma llmRouter_resolved (w : World) (response : ChatCompletion) :
  result (openai (classifierRequest message)) = Normal response ->
  llmRouter openai message w =
  match first_content response with
  | Throw e => (Throw e, after_classifier openai message w)
  | Normal None | Normal (Some []) =>
      (Normal fallback_decision, after_classifier openai message w)
  | Normal (Some text) =>
      match JSON_parse text with
      | Normal JNull | Throw _ =>
          (Normal error_decision,
           record (EvLog ErrorLevel (js "Failed to parse routing response"))
             (after_classifier openai message w))
      | Normal v =>
          (Normal
             {| rd_model :=
                  or_else (match v with
                           | JObject ms => member (js "model") ms
                           | _ => None
                           end) (JString default_model);
                rd_reasoning :=
                  or_else (match v with
                           | JObject ms => member (js "reasoning") ms
                           | _ => None
                           end)
                    (JString (js "Default fallback model for simple queries"))
             |},
           after_classifier openai message w)
      end
  end.
Proof.
  intros H. unfold llmRouter, bind, log, create, record, lift.
  cbn [clock events]. rewrite H.
  destruct (first_content response) as [[[|c text]|]|e]; try reflexivity.
  unfold try_catch, ret.
  destruct (JSON_parse (c :: text)) as [[]|e]; reflexivity.
Qed.


(** C5 (amended). For a classifier content that is non-empty: when it is
    not valid JSON, or is the JSON value [null], the decision is the default
    model with "Error in model selection, using default fallback"; when it is
    valid JSON other than [null] without a [model] field, the decision is the
    default model with the parsed [reasoning] if that is present and truthy,
    and with "Default fallback model for simple queries" otherwise. *)
Theorem route_unusable_content (w : World) (response : ChatCompletion)
    (c : Choice) (rest : list Choice) (text : JSString) :
  result (openai (classifierRequest message)) = Normal response ->
  choices response = c :: rest ->
  content (choice_message c) = Some text ->
  text <> [] ->
  ((JSON_parse text = Throw SyntaxError \/ JSON_parse text = Normal JNull) ->
   fst (llmRouter openai message w) =
   Normal {| rd_model := JString (js "openai/gpt-oss-20b:free");
             rd_reasoning :=
               JString (js "Error in model selection, using default fallback")
          |}) /\
  (forall (v : JSON) (reasoning : option JSON),
     JSON_parse text = Normal v ->
     get v (js "model") = Normal None ->
     get v (js "reasoning") = Normal reasoning ->
     fst (llmRouter openai message w) =
     Normal {| rd_model := JString (js "openai/gpt-oss-20b:free");
               rd_reasoning :=
                 or_else reasoning
                   (JString (js "Default fallback model for simple queries"))
            |}).
Proof.
  intros Hres Hch Hcontent Hne.
  rewrite (llmRouter_resolved w response Hres).
  unfold first_content. rewrite Hch, Hcontent.
  destruct text as [|t text']; [contradiction|].
  split.
  - intros [-> | ->]; reflexivity.
  - intros v reasoning -> Hm Hr.
    destruct v as [|b|n|s|items|ms]; cbn [get] in Hm, Hr; try discriminate;
      try (injection Hr as <-; reflexivity).
    injection Hm as Hm. injection Hr as Hr. rewrite Hm, Hr. reflexivity.
Qed.


End RoutingFacts.

(** * Properties of the request handler *)



Ltac branches :=
  repeat match goal with
         | |- context [if ?b then _ else _] => destruct b eqn:?
         end.

Ltac trace_shape :=
  eexists; cbn [snd fst events clock record]; rewrite <- ?app_assoc;
  cbn [app]; repeat split; reflexivity.

Section HandlerFacts.

Variable openai : Upstream.
Variable message : JSString.



Lemma llmRouter_events (w w1 : World) (r : Completion RoutingDecision) :
  llmRouter openai message w = (r, w1) ->
  exists extra : list Event,
    events w1 = events w ++ EvLog Info (js "Routing prompt")
                  :: EvCreate (classifierRequest message) :: extra /\
    forallb (fun e => negb (is_call e)) extra = true.
Proof.
  destruct (result (openai (classifierRequest message))) as [response|e] eqn:H.
  - rewrite (llmRouter_resolved openai message w response H).
    destruct (first_content response) as [[[|c text]|]|e];
      try (intros [= _ <-]; exists []; cbn [events after_classifier];
           rewrite <- app_assoc; split; reflexivity).
    destruct (JSON_parse (c :: text)) as [[]|e]; intros [= _ <-];
      try (exists []; cbn [events after_classifier];
           rewrite <- app_assoc; split; reflexivity);
      exists [EvLog ErrorLevel (js "Failed to parse routing response")];
      cbn [events after_classifier record];
      rewrite <- !app_assoc; split; reflexivity.
  - rewrite (llmRouter_rejected openai message w e H).
    intros [= _ <-]. exists []. cbn [events after_classifier].
    rewrite <- app_assoc. split; reflexivity.
Qed.

(** C3 (amended). The downstream completion call is made with the model of
    the routing decision as it is, whether or not it is a key of the
    catalog; it is the only call after the routing step, so no default
    model is substituted. *)
Theorem downstream_model_is_routing_decision (w w1 : World)
    (d : RoutingDecision) :
  llmRouter openai message (record (EvNow (clock w)) w) = (Normal d, w1) ->
  exists tail : list Event,
    events (snd (POST openai message w)) =
      events w1 ++ EvLog Info (js "Model selected")
        :: EvCreate (completionRequest (rd_model d) message) :: tail /\
    req_model (completionRequest (rd_model d) message) = rd_model d /\
    forallb (fun e => negb (is_call e)) tail = true.
Proof.
  intros Hroute.
  unfold POST, bind, Date_now. rewrite Hroute.
  unfold log, create, lift, ret, first_content.
  cbn [clock events record].
  destruct (result (openai (completionRequest (rd_model d) message)))
    as [response|e].
  - destruct (choices response) as [|c rest]; [trace_shape|].
    destruct (is_default (rd_model d)); cbn [andb]; cbv zeta; branches;
      trace_shape.
  - trace_shape.
Qed.



End HandlerFacts.

(** * The properties at concrete requests *)


(** C5, as stated, fails: valid JSON without a [model] field is not a parse
    failure; the decision carries the reasoning of the default path. *)
Lemma route_missing_model_not_error :
  JSON_parse empty_object = Normal (JObject []) /\
  get (JObject []) (js "model") = Normal None /\
  fst (llmRouter (provider (Some empty_object) None) (js "hello")
         (start_of_request 0))
    = Normal {| rd_model := JString (js "openai/gpt-oss-20b:free");
                rd_reasoning :=
                  JString (js "Default fallback model for simple queries") |}
  /\
  fst (llmRouter (provider (Some empty_object) None) (js "hello")
         (start_of_request 0))
    <> Normal {| rd_model := JString (js "openai/gpt-oss-20b:free");
                 rd_reasoning :=
                   JString
                     (js "Error in model selection, using default fallback")
              |}.
Proof.
  split; [vm_compute; reflexivity|].
  split; [reflexivity|].
  split; [vm_compute; reflexivity|].
  vm_compute. discriminate.
Qed.

Lemma route_unusable_content_witness :
  fst (llmRouter (provider (Some (js "not json")) None) (js "hello")
         (start_of_request 0))
    = Normal error_decision /\
  fst (llmRouter (provider (Some reasoning_only) None) (js "hello")
         (start_of_request 0))
    = Normal {| rd_model := JString (js "openai/gpt-oss-20b:free");
                rd_reasoning := JString (js "because") |}.
Proof.
  split.
  - destruct (route_unusable_content (provider (Some (js "not json")) None)
                (js "hello") (start_of_request 0)
                (completion_of (Some (js "not json")))
                {| choice_message := {| content := Some (js "not json") |} |}
                [] (js "not json") eq_refl eq_refl eq_refl
                ltac:(discriminate)) as [Hbad _].
    apply Hbad. left. vm_compute. reflexivity.
  - destruct (route_unusable_content (provider (Some reasoning_only) None)
                (js "hello") (start_of_request 0)
                (completion_of (Some reasoning_only))
                {| choice_message := {| content := Some reasoning_only |} |}
                [] reasoning_only eq_refl eq_refl eq_refl
                ltac:(discriminate)) as [_ Hmissing].
    apply (Hmissing (JObject [(js "reasoning", JString (js "because"))])
             (Some (JString (js "because"))));
      [vm_compute; reflexivity|reflexivity|reflexivity].
Defined.



(** C3, as stated, fails: a model that is not a key of the catalog is sent
    to the provider unchanged. *)
Lemma unknown_model_reaches_provider :
  own_entry (js "acme/unknown-1") modelPerformance = None /\
  calls_of (POST (provider (Some unknown_model) (Some (js "Hello")))
              (js "hi") (start_of_request 0))
    = [EvCreate (classifierRequest (js "hi"));
       EvCreate (completionRequest (JString (js "acme/unknown-1")) (js "hi"))].
Proof. split; vm_compute; reflexivity. Qed.

Lemma downstream_model_is_routing_decision_witness :
  exists tail : list Event,
    events (snd (POST (provider (Some unknown_model) (Some (js "Hello")))
                   (js "hi") (start_of_request 0)))
    = [EvNow 0; EvLog Info (js "Routing prompt");
       EvCreate (classifierRequest (js "hi"))]
      ++ EvLog Info (js "Model selected")
      :: EvCreate (completionRequest (JString (js "acme/unknown-1")) (js "hi"))
      :: tail.
Proof.
  destruct (downstream_model_is_routing_decision
              (provider (Some unknown_model) (Some (js "Hello"))) (js "hi")
              (start_of_request 0)
              (after_classifier
                 (provider (Some unknown_model) (Some (js "Hello"))) (js "hi")
                 (record (EvNow 0) (start_of_request 0)))
              {| rd_model := JString (js "acme/unknown-1");
                 rd_reasoning :=
                   JString (js "Default fallback model for simple queries") |})
    as (tail & Htail & _).
  - vm_compute. reflexivity.
  - exists tail. exact Htail.
Defined.




(** * Further properties of the sanitizer *)

Section SanitizerMore.

Local Open Scope nat_scope.

Lemma dropWhileEnd_nil (p : char16 -> bool) (s : JSString) :
  dropWhileEnd p s = [] -> forallb p s = true.
Proof.
  destruct s as [|x s']; [reflexivity|]. cbn [dropWhileEnd].
  destruct (forallb p (x :: s')); [reflexivity|discriminate].
Qed.

Lemma ends_free_cons (p : char16 -> bool) (x y : char16) (s : JSString) :
  ends_free p (x :: y :: s) = ends_free p (y :: s).
Proof.
  unfold ends_free. cbn [rev].
  destruct (rev s ++ [y]) as [|z t] eqn:E; [|reflexivity].
  destruct (rev s); discriminate.
Qed.

Lemma ends_free_dropWhileEnd (p : char16 -> bool) (s : JSString) :
  ends_free p (dropWhileEnd p s) = true.
Proof.
  induction s as [|x s' IH]; [reflexivity|].
  cbn [dropWhileEnd]. destruct (forallb p (x :: s')) eqn:E; [reflexivity|].
  destruct (dropWhileEnd p s') as [|y t] eqn:D.
  - apply dropWhileEnd_nil in D. simpl in E. rewrite D, andb_true_r in E.
    unfold ends_free. simpl. rewrite E. reflexivity.
  - rewrite ends_free_cons. exact IH.
Qed.

Lemma ends_free_forallb (p : char16 -> bool) (s : JSString) :
  ends_free p s = true -> s <> [] -> forallb p s = false.
Proof.
  induction s as [|x s' IH]; [contradiction|]. intros H _.
  destruct s' as [|y t].
  - unfold ends_free in H. simpl in H |- *.
    destruct (p x); [discriminate|reflexivity].
  - rewrite ends_free_cons in H.
    change (forallb p (x :: y :: t)) with (p x && forallb p (y :: t)).
    rewrite (IH H) by discriminate. apply andb_false_r.
Qed.

Lemma dropWhileEnd_ends_free (p : char16 -> bool) (s : JSString) :
  ends_free p s = true -> dropWhileEnd p s = s.
Proof.
  induction s as [|x s' IH]; [reflexivity|]. intros H.
  cbn [dropWhileEnd]. rewrite (ends_free_forallb p _ H) by discriminate.
  destruct s' as [|y t]; [reflexivity|].
  rewrite ends_free_cons in H. rewrite (IH H). reflexivity.
Qed.

Lemma ends_free_weaken (p q : char16 -> bool) (s : JSString) :
  (forall c, q c = true -> p c = true) ->
  ends_free p s = true -> ends_free q s = true.
Proof. intros Hsub. apply head_free_weaken. exact Hsub. Qed.

Lemma normalize_ends_free (s : JSString) :
  ends_free is_punct (normalize s) = true.
Proof. rewrite normalize_spec. apply ends_free_dropWhileEnd. Qed.

(** On a string in normal form, the normalization changes nothing. *)
Lemma normalize_normal (s : JSString) :
  spaced s = true -> head_free is_punct s = true ->
  ends_free is_punct s = true -> normalize s = s.
Proof.
  intros Hsp Hhd Hend. rewrite normalize_spec.
  unfold replace. rewrite (collapse_id _ Hsp true). unfold trim.
  rewrite (dropWhile_head_free isWhiteSpace)
    by (apply (head_free_weaken is_punct); [apply white_is_punct|exact Hhd]).
  rewrite (dropWhileEnd_ends_free isWhiteSpace)
    by (apply (ends_free_weaken is_punct); [apply white_is_punct|exact Hend]).
  rewrite (dropWhile_head_free is_punct) by exact Hhd.
  apply dropWhileEnd_ends_free. exact Hend.
Qed.


(** X1. A result of [cleanModelResponse] that is not the input itself is
    in normal form: its white space is single U+0020 characters, and it
    neither begins nor ends with a full stop, a comma or white space. *)
Theorem clean_result_normal_form (x : JSString) :
  cleanModelResponse x = x \/
  (spaced (cleanModelResponse x) = true /\
   head_free is_punct (cleanModelResponse x) = true /\
   ends_free is_punct (cleanModelResponse x) = true).
Proof.
  unfold cleanModelResponse.
  destruct (is_empty x); [left; reflexivity|]. cbv zeta.
  destruct (length (cleanedForm x) <? 10); [left; reflexivity|].
  right. unfold cleanedForm.
  split; [apply normalize_spaced|].
  split; [apply normalize_head_free|apply normalize_ends_free].
Qed.

(** X2. A text in which no artifact pattern matches and that is already
    in normal form is returned as it is, whatever its length. *)
Theorem clean_fixed_point (x : JSString) :
  has_artifact x = false ->
  spaced x = true ->
  head_free is_punct x = true ->
  ends_free is_punct x = true ->
  cleanModelResponse x = x.
Proof.
  intros Hres Hsp Hhd Hend. unfold cleanModelResponse.
  destruct (is_empty x); [reflexivity|]. cbv zeta.
  unfold cleanedForm.
  rewrite (removeArtifacts_clean _ Hres), (normalize_normal _ Hsp Hhd Hend).
  destruct (length x <? 10); reflexivity.
Qed.

Lemma clean_fixed_point_witness :
  has_artifact (js "It is 4, I think") = false /\
  cleanModelResponse (js "It is 4, I think") = js "It is 4, I think".
Proof.
  split; [vm_compute; reflexivity|].
  apply (clean_fixed_point (js "It is 4, I think")); vm_compute; reflexivity.
Defined.

(** X4. The white space and punctuation steps of the sanitizer are
    idempotent: normalizing a normalized text changes nothing. *)
Theorem normalize_twice (s : JSString) :
  normalize (normalize s) = normalize s.
Proof.
  apply normalize_normal;
    [apply normalize_spaced|apply normalize_head_free
    |apply normalize_ends_free].
Qed.

Lemma starts_with_literal_nonempty (re : RegExp) :
  starts_with_literal re = true ->
  forall b s n, match_here re b s = Some n -> 1 <= n.
Proof.
  unfold starts_with_literal, match_here.
  generalize (ignoreCase re) as ic.
  induction (disjunction re) as [|alt alts IH]; intros ic H b s n;
    cbn [match_disj]; [discriminate|].
  cbn [forallb] in H. apply andb_prop in H. destruct H as [Halt Halts].
  destruct (match_seq ic alt b s) as [m|] eqn:E; [|apply IH; exact Halts].
  intros [= <-]. destruct alt as [|[c| | |] ts]; try discriminate.
  cbn [match_seq] in E. destruct s as [|x s']; [discriminate|].
  destruct (char_matches ic c x); [|discriminate].
  destruct (match_seq ic ts false s'); [|discriminate].
  injection E as <-. lia.
Qed.

(** Erasing the matches of a pattern that matches somewhere, and never
    matches the empty string, shortens the text. *)
Lemma replace_loop_erase_shorter (re : RegExp) :
  (forall b s n, match_here re b s = Some n -> 1 <= n) ->
  forall s b, search re b s = true ->
  length (replace_loop re [] b 0 s) < length s.
Proof.
  intros Hpos s; induction s as [|x s' IH]; intros b H.
  - cbn [search] in H. destruct (match_here re b []) as [n|] eqn:E;
      [|discriminate].
    pose proof (Hpos _ _ _ E). apply match_here_le in E. simpl in E. lia.
  - cbn [search] in H. cbn [replace_loop].
    destruct (match_here re b (x :: s')) as [[|n]|] eqn:E.
    + apply Hpos in E. lia.
    + cbn [app length].
      pose proof (replace_loop_length re []
                    ltac:(intros; simpl; lia) s' false n). lia.
    + cbn [length]. specialize (IH false H). lia.
Qed.

Lemma erase_all_length (l : list RegExp) :
  forall s, length (fold_left (fun cleaned pattern => replace cleaned pattern [])
                      l s) <= length s.
Proof.
  induction l as [|re l IH]; intros s; cbn [fold_left]; [lia|].
  specialize (IH (replace s re [])).
  pose proof (replace_erase_length s re). lia.
Qed.

Lemma erase_all_shorter (l : list RegExp) :
  forallb starts_with_literal l = true ->
  forall s, existsb (fun pattern => test pattern s) l = true ->
  length (fold_left (fun cleaned pattern => replace cleaned pattern []) l s)
  < length s.
Proof.
  induction l as [|re l IH]; intros Hl s H; cbn [existsb] in H;
    [discriminate|].
  cbn [forallb] in Hl. apply andb_prop in Hl. destruct Hl as [Hre Hl].
  cbn [fold_left]. destruct (test re s) eqn:E.
  - pose proof (erase_all_length l (replace s re [])).
    pose proof (replace_loop_erase_shorter re
                  (starts_with_literal_nonempty re Hre) s true E).
    unfold replace in *. lia.
  - cbn [orb] in H. unfold replace at 2.
    rewrite (replace_loop_no_match re [] s true E).
    apply IH; assumption.
Qed.

(** X3. When some artifact pattern matches in the input and the cleaned
    form passes the quality gate, the result is strictly shorter than the
    input: an artifact is never removed for nothing, and an input with an
    artifact comes back unchanged only through the gate. *)
Theorem clean_with_artifact_shorter (x : JSString) :
  has_artifact x = true ->
  10 <= length (cleanedForm x) ->
  length (cleanModelResponse x) < length x.
Proof.
  intros Hart Hlen.
  assert (length (cleanedForm x) < length x) as Hlt.
  { unfold cleanedForm.
    pose proof (normalize_length (removeArtifacts x)).
    pose proof (erase_all_shorter artifacts eq_refl x Hart).
    unfold removeArtifacts in *. lia. }
  unfold cleanModelResponse.
  destruct (is_empty x) eqn:Ex; [destruct x; [simpl in Hlt; lia|discriminate]|].
  cbv zeta. apply Nat.ltb_ge in Hlen. rewrite Hlen. exact Hlt.
Qed.

Lemma clean_with_artifact_shorter_witness :
  has_artifact (js "assistantfinal The answer is 42") = true /\
  length (cleanModelResponse (js "assistantfinal The answer is 42"))
  < length (js "assistantfinal The answer is 42").
Proof.
  split; [vm_compute; reflexivity|].
  apply (clean_with_artifact_shorter (js "assistantfinal The answer is 42"));
    [vm_compute; reflexivity|vm_compute; lia].
Defined.

End SanitizerMore.

(** * Further properties of the routing policy and of the handler *)


Lemma no_calls_filter (l : list Event) :
  forallb (fun e => negb (is_call e)) l = true -> filter is_call l = [].
Proof.
  induction l as [|e l IH]; [reflexivity|]. cbn [forallb filter].
  intros H. apply andb_prop in H. destruct H as [He Hl].
  destruct (is_call e); [discriminate|]. exact (IH Hl).
Qed.

Lemma unlines_cons (l l' : JSString) (ls : list JSString) :
  unlines (l :: l' :: ls) = l ++ 0x0A :: unlines (l' :: ls).
Proof. reflexivity. Qed.

Lemma unlines_insert (before : list JSString) (a m l' : JSString)
    (after : list JSString) :
  unlines (before ++ (a ++ quote :: m ++ [quote]) :: l' :: after) =
  (concat (map (fun l => l ++ [0x0A]) before) ++ a ++ [quote])
  ++ m ++ quote :: 0x0A :: unlines (l' :: after).
Proof.
  induction before as [|l before IH].
  - cbn [app map concat]. rewrite unlines_cons.
    rewrite <- !app_assoc. cbn [app]. rewrite <- !app_assoc. reflexivity.
  - cbn [app map concat].
    destruct before as [|l2 before'].
    + cbn [app] in IH |- *. rewrite unlines_cons.
      etransitivity;
        [apply (f_equal (fun t => l ++ 0x0A :: t)); exact IH|].
      cbn [map concat app]. rewrite <- !app_assoc. reflexivity.
    + cbn [app] in IH |- *. rewrite unlines_cons.
      etransitivity;
        [apply (f_equal (fun t => l ++ 0x0A :: t)); exact IH|].
      rewrite <- !app_assoc. reflexivity.
Qed.

(** X20. The classification prompt is a fixed text around the message: the
    message is inserted as it is, between double quotes after "User
    Message: ", and nothing in it is escaped or cut. *)
Theorem prompt_embeds_message_verbatim :
  exists head tail : JSString,
    forall message : JSString,
      routingPrompt message =
      head ++ js "User Message: " ++ quote :: message ++ quote :: tail.
Proof.
  eexists. eexists. intros message. unfold routingPrompt.
  match goal with
  | |- unlines ?ls = _ =>
      change ls with (firstn 25 ls
                      ++ (js "User Message: " ++ quote :: message ++ [quote])
                      :: nth 26 ls [] :: skipn 27 ls)
  end.
  cbn [firstn skipn nth].
  rewrite unlines_insert. rewrite <- !app_assoc. cbn [app].
  reflexivity.
Qed.

Section RoutingMore.

Variable openai : Upstream.
Variable message : JSString.


(** X6. The routing policy makes exactly one upstream call, whatever the
    message and the outcome: the classification request to
    "google/gemini-2.5-flash-lite"; it does not retry. *)
Theorem route_single_call (w : World) :
  filter is_call (events (snd (llmRouter openai message w)))
    = filter is_call (events w) ++ [EvCreate (classifierRequest message)] /\
  req_model (classifierRequest message)
    = JString (js "google/gemini-2.5-flash-lite").
Proof.
  split; [|reflexivity].
  destruct (llmRouter openai message w) as [r w1] eqn:E.
  destruct (llmRouter_events openai message w w1 r E) as (extra & Hev & Hno).
  cbn [snd]. rewrite Hev, filter_app. cbn [filter is_call].
  rewrite (no_calls_filter _ Hno). reflexivity.
Qed.

(** X7. A complete answer of the classifier is passed through: when the
    content parses to an object with a truthy [model] and a truthy
    [reasoning], the decision is that pair, whether or not the model is in
    the catalog. *)
Theorem route_passes_answer_through (w : World) (response : ChatCompletion)
    (c : Choice) (rest : list Choice) (text : JSString)
    (ms : list (JSString * JSON)) (m r : JSON) :
  result (openai (classifierRequest message)) = Normal response ->
  choices response = c :: rest ->
  content (choice_message c) = Some text ->
  JSON_parse text = Normal (JObject ms) ->
  member (js "model") ms = Some m -> truthy m = true ->
  member (js "reasoning") ms = Some r -> truthy r = true ->
  fst (llmRouter openai message w)
    = Normal {| rd_model := m; rd_reasoning := r |}.
Proof.
  intros Hres Hch Hc Hp Hm Htm Hr Htr.
  rewrite (llmRouter_resolved openai message w response Hres).
  unfold first_content. rewrite Hch, Hc.
  destruct text as [|t text']; [vm_compute in Hp; discriminate|].
  rewrite Hp, Hm, Hr. cbn [or_else]. rewrite Htm, Htr. reflexivity.
Qed.

(** X8. The routing policy raises in two cases only: the classifier call is
    rejected (the rejection is raised as it is), or it resolves without any
    choice (a TypeError). *)
Theorem route_raises_iff (w : World) (e : Error) :
  fst (llmRouter openai message w) = Throw e <->
  (result (openai (classifierRequest message)) = Throw e \/
   exists response : ChatCompletion,
     result (openai (classifierRequest message)) = Normal response /\
     choices response = [] /\ e = TypeError).
Proof.
  destruct (result (openai (classifierRequest message)))
    as [response|e'] eqn:H.
  - rewrite (llmRouter_resolved openai message w response H).
    unfold first_content.
    destruct (choices response) as [|c rest] eqn:Hch.
    + split.
      * intros [= <-]. right. exists response. auto.
      * intros [[=]|(r' & [= <-] & _ & ->)]. reflexivity.
    + split.
      * destruct (content (choice_message c)) as [[|t text]|];
          try discriminate.
        destruct (JSON_parse (t :: text)) as [[]|]; discriminate.
      * intros [[=]|(r' & [= <-] & Hnil & _)]. congruence.
  - rewrite (llmRouter_rejected openai message w e' H). split.
    + intros [= <-]. left. reflexivity.
    + intros [[= <-]|(r' & [=] & _)]. reflexivity.
Qed.

End RoutingMore.


Lemma route_passes_answer_through_witness :
  fst (llmRouter (provider (Some unknown_model_with_reason) None) (js "hello")
         (start_of_request 0))
    = Normal {| rd_model := JString (js "acme/unknown-1");
                rd_reasoning := JString (js "because") |}.
Proof.
  apply (route_passes_answer_through
           (provider (Some unknown_model_with_reason) None) (js "hello")
           (start_of_request 0)
           (completion_of (Some unknown_model_with_reason))
           {| choice_message :=
                {| content := Some unknown_model_with_reason |} |} []
           unknown_model_with_reason
           [(js "model", JString (js "acme/unknown-1"));
            (js "reasoning", JString (js "because"))]);
    reflexivity.
Defined.


Section HandlerMore.

Local Open Scope nat_scope.

Variable openai : Upstream.
Variable message : JSString.





Lemma POST_events (w w1 : World) (d : RoutingDecision) :
  llmRouter openai message (record (EvNow (clock w)) w) = (Normal d, w1) ->
  exists tail : list Event,
    events (snd (POST openai message w)) =
      events w1 ++ EvLog Info (js "Model selected")
        :: EvCreate (completionRequest (rd_model d) message) :: tail /\
    forallb (fun e => negb (is_call e)) tail = true.
Proof.
  intros Hroute.
  unfold POST, bind, Date_now. rewrite Hroute.
  unfold log, create, lift, ret, first_content.
  cbn [clock events record].
  destruct (result (openai (completionRequest (rd_model d) message)))
    as [response|e].
  - destruct (choices response) as [|c rest]; [trace_shape|].
    destruct (is_default (rd_model d)); cbn [andb]; cbv zeta; branches;
      trace_shape.
  - trace_shape.
Qed.

(** X12. The upstream calls of a request are the classification call and,
    only when the routing policy returned a decision, one completion call
    with the model of that decision: no call is repeated and no second
    model is tried. *)
Theorem handler_calls (w : World) :
  calls_of (POST openai message w) =
  filter is_call (events w)
  ++ EvCreate (classifierRequest message)
  :: match fst (llmRouter openai message (record (EvNow (clock w)) w)) with
     | Normal d => [EvCreate (completionRequest (rd_model d) message)]
     | Throw _ => []
     end.
Proof.
  unfold calls_of.
  destruct (llmRouter openai message (record (EvNow (clock w)) w))
    as [[d|e] w1] eqn:Hroute; cbn [fst].
  - destruct (POST_events w w1 d Hroute) as (tail & Hev & Hno).
    destruct (llmRouter_events openai message _ _ _ Hroute)
      as (extra & Hev1 & Hno1).
    rewrite Hev, Hev1. cbn [events record].
    rewrite ?filter_app. cbn [filter is_call app].
    rewrite ?filter_app. cbn [filter is_call app].
    rewrite (no_calls_filter _ Hno), (no_calls_filter _ Hno1).
    rewrite <- !app_assoc. reflexivity.
  - destruct (llmRouter_events openai message _ _ _ Hroute)
      as (extra & Hev1 & Hno1).
    unfold POST, bind, Date_now. rewrite Hroute. cbn [snd].
    rewrite Hev1. cbn [events record].
    rewrite ?filter_app. cbn [filter is_call app].
    rewrite ?filter_app. cbn [filter is_call app].
    rewrite (no_calls_filter _ Hno1).
    rewrite <- !app_assoc. reflexivity.
Qed.


Lemma POST_body (w w1 : World) (d : RoutingDecision)
    (response : ChatCompletion) (c : Choice) (rest : list Choice) :
  llmRouter openai message (record (EvNow (clock w)) w) = (Normal d, w1) ->
  result (openai (completionRequest (rd_model d) message)) = Normal response ->
  choices response = c :: rest ->
  fst (POST openai message w) =
  Normal
    {| body_model := rd_model d;
       body_reasoning := rd_reasoning d;
       body_performance :=
         {| static := static_fields (rd_model d);
            actualTimeToFirstToken :=
              number_to_string
                (clock w1
                 + Z.of_N (latency (openai (completionRequest (rd_model d)
                                              message)))
                 - clock w)%Z ++ js "ms" |};
       body_reply :=
         if is_default (rd_model d) then
           let cleaned :=
             cleanModelResponse (or_empty (content (choice_message c))) in
           if still_has_artifacts cleaned
              && (10 <? length (fallbackReply cleaned))
           then fallbackReply cleaned else cleaned
         else or_empty (content (choice_message c)) |}.
Proof.
  intros Hroute Hres Hch.
  unfold POST, bind, Date_now. rewrite Hroute.
  unfold log, create, lift, ret, first_content. rewrite Hres, Hch.
  cbn [clock events record].
  destruct (is_default (rd_model d)); cbn [andb]; cbv zeta;
    [branches; first [reflexivity|cbn [andb] in *; congruence]|reflexivity].
Qed.

(** X19. A request for which the classifier gives no content is answered
    by the default model: the response names "openai/gpt-oss-20b:free" with
    the reasoning "Default fallback model for simple queries" and the
    catalog entry of that model, and its reply has gone through the
    sanitizer. *)
Theorem unrouted_request_gets_default_model (w : World)
    (classified response : ChatCompletion) (c0 c : Choice)
    (rest0 rest : list Choice) :
  result (openai (classifierRequest message)) = Normal classified ->
  choices classified = c0 :: rest0 ->
  content (choice_message c0) = None \/
  content (choice_message c0) = Some [] ->
  result (openai (completionRequest (JString (js "openai/gpt-oss-20b:free"))
                    message)) = Normal response ->
  choices response = c :: rest ->
  exists body : ChatResponse,
    fst (POST openai message w) = Normal body /\
    body_model body = JString (js "openai/gpt-oss-20b:free") /\
    body_reasoning body
      = JString (js "Default fallback model for simple queries") /\
    static (body_performance body)
      = Some {| throughput := js "162 tps"; timeToFirstToken := js "0.52s";
                tokensPerSecond := js "162"; cost := js "Free" |} /\
    body_reply body =
      let cleaned :=
        cleanModelResponse (or_empty (content (choice_message c))) in
      if still_has_artifacts cleaned
         && (10 <? length (fallbackReply cleaned))
      then fallbackReply cleaned else cleaned.
Proof.
  intros Hcls Hch0 Hnone Hres Hch.
  assert (llmRouter openai message (record (EvNow (clock w)) w)
          = (Normal fallback_decision,
             after_classifier openai message (record (EvNow (clock w)) w)))
    as Hroute.
  { rewrite (llmRouter_resolved openai message _ classified Hcls).
    unfold first_content. rewrite Hch0.
    destruct Hnone as [-> | ->]; reflexivity. }
  eexists. split; [exact (POST_body _ _ _ response c rest Hroute Hres Hch)|].
  repeat split; reflexivity.
Qed.

End HandlerMore.

(** * The earlier version of the route, and the page *)

Section LegacyFacts.

Variable openai : Upstream.
Variable message : JSString.

Lemma legacy_router_resolved (w : World) (response : ChatCompletion) :
  result (openai (Legacy.classifierRequest message)) = Normal response ->
  fst (Legacy.llmRouter openai message w) =
  match first_content response with
  | Throw e => Throw e
  | Normal None | Normal (Some []) =>
      Normal (JString (js "openai/gpt-oss-20b:free"))
  | Normal (Some text) =>
      match JSON_parse text with
      | Throw e => Throw e
      | Normal JNull => Throw TypeError
      | Normal (JObject ms) =>
          Normal (or_else (member (js "model") ms)
                    (JString (js "openai/gpt-oss-20b:free")))
      | Normal _ => Normal (JString (js "openai/gpt-oss-20b:free"))
      end
  end.
Proof.
  intros H.
  unfold Legacy.llmRouter, Legacy.console_log, bind, create, record, lift.
  cbn [clock events]. rewrite H.
  destruct (first_content response) as [[[|c text]|]|e]; try reflexivity.
  unfold ret. destruct (JSON_parse (c :: text)) as [[]|e]; reflexivity.
Qed.

(** X14. Without the [try] of the current version, an unusable classifier
    answer is fatal: where the current routing policy returns its error
    decision (the content is not JSON, or is [null]), the earlier one
    raises. *)
Theorem legacy_route_raises_where_current_recovers (w w' : World)
    (response : ChatCompletion) (c : Choice) (rest : list Choice)
    (text : JSString) :
  result (openai (Legacy.classifierRequest message)) = Normal response ->
  result (openai (classifierRequest message)) = Normal response ->
  choices response = c :: rest ->
  content (choice_message c) = Some text ->
  text <> [] ->
  JSON_parse text = Throw SyntaxError \/ JSON_parse text = Normal JNull ->
  (exists e : Error, fst (Legacy.llmRouter openai message w) = Throw e) /\
  fst (llmRouter openai message w') = Normal error_decision.
Proof.
  intros Hold Hnew Hch Hc Hne Hbad.
  rewrite (legacy_router_resolved w response Hold).
  rewrite (llmRouter_resolved openai message w' response Hnew).
  unfold first_content. rewrite Hch, Hc.
  destruct text as [|t text']; [contradiction|].
  destruct Hbad as [-> | ->]; split; try reflexivity; eexists; reflexivity.
Qed.

(** X15. The current routing policy extends the earlier one: whenever the
    earlier version returns a model for a classifier response, the current
    version returns a decision with the same model for that response. *)
Theorem current_route_agrees_with_legacy (w w' : World)
    (response : ChatCompletion) (m : JSON) :
  result (openai (Legacy.classifierRequest message)) = Normal response ->
  result (openai (classifierRequest message)) = Normal response ->
  fst (Legacy.llmRouter openai message w) = Normal m ->
  exists d : RoutingDecision,
    fst (llmRouter openai message w') = Normal d /\ rd_model d = m.
Proof.
  intros Hold Hnew.
  rewrite (legacy_router_resolved w response Hold).
  rewrite (llmRouter_resolved openai message w' response Hnew).
  destruct (first_content response) as [[[|c text]|]|e]; try discriminate;
    try (intros [= <-]; eexists; split; reflexivity).
  destruct (JSON_parse (c :: text)) as [[]|e]; try discriminate;
    intros [= <-]; eexists; split; reflexivity.
Qed.

(** X16. The earlier handler returns the reply of the provider as it is,
    for every model: nothing is sanitized, and an absent content appears as
    the text "null". *)
Theorem legacy_reply_verbatim (Number_toString : Decimal -> JSString)
    (w w1 : World) (m : JSString) (response : ChatCompletion) (c : Choice)
    (rest : list Choice) :
  Legacy.llmRouter openai message w = (Normal (JString m), w1) ->
  result (openai (completionRequest (JString m) message)) = Normal response ->
  choices response = c :: rest ->
  fst (Legacy.POST Number_toString openai message w) =
  Normal (js " Model: " ++ m ++ js " " ++ [0x0A; 0x0A; 0x0A] ++ js " Reply: "
          ++ match content (choice_message c) with
             | Some reply => reply
             | None => js "null"
             end).
Proof.
  intros Hroute Hres Hch.
  unfold Legacy.POST, bind. rewrite Hroute.
  unfold create, lift, ret, first_content. rewrite Hres, Hch.
  reflexivity.
Qed.

End LegacyFacts.

Section PageFacts.

Local Open Scope nat_scope.

Lemma trim_head_free (s : JSString) : head_free isWhiteSpace (trim s) = true.
Proof. apply head_free_dropWhileEnd, head_free_dropWhile. Qed.

Lemma trim_trim (s : JSString) : trim (trim s) = trim s.
Proof.
  unfold trim at 1.
  rewrite (dropWhile_head_free isWhiteSpace) by apply trim_head_free.
  unfold trim. apply dropWhileEnd_twice. auto.
Qed.

(** X17. A text that may be sent never gets the greeting: when [canSend]
    holds, the canned reply for the trimmed input (the text that
    [handleSend] passes on) quotes that text. *)
Theorem sendable_text_is_quoted (input : JSString) (isSending : bool)
    (w : World) :
  Page.canSend input isSending = true ->
  fst (Page.formatAssistantReply (trim input) w) =
  Normal (js "You said: " ++ quote :: trim input
          ++ quote :: js ". Here is a helpful response.").
Proof.
  unfold Page.canSend. intros H. apply andb_prop in H. destruct H as [H _].
  unfold Page.formatAssistantReply, bind, log, ret. cbn [fst].
  rewrite trim_trim, H. reflexivity.
Qed.

(** X18. The canned reply is the greeting exactly for a blank input (empty
    or white space only), and it does not depend on white space around the
    input. *)
Theorem canned_reply_blank_and_trim (input : JSString) (w : World) :
  (fst (Page.formatAssistantReply input w)
     = Normal (js "Hello! Ask me anything.") <-> trim input = []) /\
  Page.formatAssistantReply (trim input) w = Page.formatAssistantReply input w.
Proof.
  split.
  - unfold Page.formatAssistantReply, bind, log, ret. cbn [fst].
    destruct (trim input) as [|c t] eqn:E; cbn [length Nat.ltb Nat.leb].
    + split; reflexivity.
    + split; [|discriminate]. intros H. vm_compute in H. discriminate.
  - unfold Page.formatAssistantReply. rewrite trim_trim. reflexivity.
Qed.

End PageFacts.

(** * The further properties at concrete requests *)




Lemma legacy_route_raises_where_current_recovers_witness :
  (exists e : Error,
     fst (Legacy.llmRouter (provider (Some (js "not json")) None) (js "hello")
            (start_of_request 0)) = Throw e) /\
  fst (llmRouter (provider (Some (js "not json")) None) (js "hello")
         (start_of_request 0)) = Normal error_decision.
Proof.
  apply (legacy_route_raises_where_current_recovers
           (provider (Some (js "not json")) None) (js "hello")
           (start_of_request 0) (start_of_request 0)
           (completion_of (Some (js "not json")))
           {| choice_message := {| content := Some (js "not json") |} |} []
           (js "not json"));
    [reflexivity|reflexivity|reflexivity|reflexivity|discriminate|].
  left. vm_compute. reflexivity.
Defined.

Lemma current_route_agrees_with_legacy_witness :
  fst (Legacy.llmRouter (provider (Some unknown_model) None) (js "hello")
         (start_of_request 0)) = Normal (JString (js "acme/unknown-1")) /\
  exists d : RoutingDecision,
    fst (llmRouter (provider (Some unknown_model) None) (js "hello")
           (start_of_request 0)) = Normal d /\
    rd_model d = JString (js "acme/unknown-1").
Proof.
  split; [vm_compute; reflexivity|].
  apply (current_route_agrees_with_legacy
           (provider (Some unknown_model) None) (js "hello")
           (start_of_request 0) (start_of_request 0)
           (completion_of (Some unknown_model)));
    [reflexivity|reflexivity|vm_compute; reflexivity].
Defined.

Lemma legacy_reply_verbatim_witness :
  fst (Legacy.POST (fun _ => []) (provider (Some unknown_model) None)
         (js "hi") (start_of_request 0))
    = Normal (js " Model: acme/unknown-1 " ++ [0x0A; 0x0A; 0x0A]
              ++ js " Reply: null").
Proof.
  apply (legacy_reply_verbatim (provider (Some unknown_model) None) (js "hi")
           (fun _ => []) (start_of_request 0)
           (snd (Legacy.llmRouter (provider (Some unknown_model) None)
                   (js "hi") (start_of_request 0)))
           (js "acme/unknown-1") (completion_of None)
           {| choice_message := {| content := None |} |} []);
    [vm_compute; reflexivity|reflexivity|reflexivity].
Defined.

Lemma sendable_text_is_quoted_witness :
  Page.canSend (js "  hi there ") false = true /\
  fst (Page.formatAssistantReply (trim (js "  hi there "))
         (start_of_request 0))
    = Normal (js "You said: " ++ quoted "hi there"
              ++ js ". Here is a helpful response.").
Proof.
  split; [vm_compute; reflexivity|].
  apply (sendable_text_is_quoted (js "  hi there ") false
           (start_of_request 0)).
  vm_compute. reflexivity.
Defined.

Lemma unrouted_request_gets_default_model_witness :
  exists body : ChatResponse,
    fst (POST (provider None (Some (js "analysis Hello   there, my friend. ")))
           (js "hi") (start_of_request 0)) = Normal body /\
    body_model body = JString (js "openai/gpt-oss-20b:free") /\
    body_reply body = js "Hello there, my friend".
Proof.
  destruct (unrouted_request_gets_default_model
              (provider None (Some (js "analysis Hello   there, my friend. ")))
              (js "hi") (start_of_request 0)
              (completion_of None)
              (completion_of (Some (js "analysis Hello   there, my friend. ")))
              {| choice_message := {| content := None |} |}
              {| choice_message :=
                   {| content :=
                        Some (js "analysis Hello   there, my friend. ") |} |}
              [] [])
    as (body & Hbody & Hmodel & _ & _ & Hreply);
    [reflexivity|reflexivity|left; reflexivity|reflexivity|reflexivity|].
  exists body. split; [exact Hbody|]. split; [exact Hmodel|].
  rewrite Hreply. vm_compute. reflexivity.
Defined.
